(** * Turn, voice, quota and session orchestration of the AI Tutor client

    A shallow embedding of the React front end: the chat component
    ([ChatInterface]: [formatTime], the countdown effect, [speakText],
    [handleSendMessage]) and the application shell ([App]: the session
    catalog, [handleNewSession], [handleLoadSession],
    [handleDeleteSession], [updateSessionMessages] and the persistence
    effects).

    Conventions.
    - A JavaScript string is a [string]; its characters stand for code
      units.
    - A [useState] cell is a record field; a handler is a function from the
      state of the render it closes over to the next state.  Values a
      handler captures across an [await] are kept in an explicit record.
    - The object [sessionMessages] is a [gmap string _]; the array
      [sessions] is a list, newest first. *)

From Stdlib Require Import ZArith String Ascii List Lia.
From Stdlib Require Import DecimalString DecimalPos.
From stdpp Require Import base option strings list gmap.

Local Open Scope Z_scope.

(** ** JavaScript values used by the chat component *)

Module Js.

(** The values that reach [retrySeconds]: the initial [null], an absent
    property ([undefined]), the result of arithmetic on it ([NaN]) and
    integer numbers. *)
Inductive num : Type :=
| Undefined
| Null
| NaN
| Int (z : Z).

(** ToNumber, [None] standing for NaN. *)
Definition to_number (v : num) : option Z :=
  match v with
  | Undefined => None
  | Null => Some 0
  | NaN => None
  | Int z => Some z
  end.

(** ToBoolean: [undefined], [null], [NaN] and [0] are falsy. *)
Definition truthy (v : num) : bool :=
  match v with
  | Int z => negb (z =? 0)
  | _ => false
  end.

(** [v <= k] and [v > k]: a comparison with NaN is false. *)
Definition le (v : num) (k : Z) : bool :=
  match to_number v with Some z => z <=? k | None => false end.

Definition gt (v : num) (k : Z) : bool :=
  match to_number v with Some z => k <? z | None => false end.

(** [v - k]. *)
Definition sub (v : num) (k : Z) : num :=
  match to_number v with Some z => Int (z - k) | None => NaN end.

(** [Number.prototype.toString()] on an integer. *)
Definition toString (z : Z) : string :=
  NilEmpty.string_of_int (Z.to_int z).

(** [padString] repeated and cut to [n] characters. *)
Fixpoint filler (n : nat) (pad cur : string) : string :=
  match n with
  | O => EmptyString
  | S n' =>
      match cur with
      | String c rest => String c (filler n' pad rest)
      | EmptyString =>
          match pad with
          | String c rest => String c (filler n' pad rest)
          | EmptyString => EmptyString
          end
      end
  end.

(** [String.prototype.padStart(targetLength, padString)]. *)
Definition padStart (s : string) (targetLength : nat) (padString : string)
  : string :=
  if (targetLength <=? String.length s)%nat then s
  else filler (targetLength - String.length s) padString padString +:+ s.

(** ECMAScript WhiteSpace and LineTerminator code units below 256:
    TAB, LF, VT, FF, CR, SP and NBSP. *)
Definition is_space (c : ascii) : bool :=
  match nat_of_ascii c with
  | 9%nat | 10%nat | 11%nat | 12%nat | 13%nat | 32%nat | 160%nat => true
  | _ => false
  end.

Fixpoint trimStart (s : string) : string :=
  match s with
  | String c rest => if is_space c then trimStart rest else s
  | EmptyString => EmptyString
  end.

Fixpoint trimEnd (s : string) : string :=
  match s with
  | String c rest =>
      match trimEnd rest with
      | EmptyString => if is_space c then EmptyString else String c EmptyString
      | t => String c t
      end
  | EmptyString => EmptyString
  end.

(** [String.prototype.trim()]. *)
Definition trim (s : string) : string := trimEnd (trimStart s).

(** Truthiness of a string: only the empty string is falsy. *)
Definition nonempty (s : string) : bool :=
  match s with EmptyString => false | String _ _ => true end.

End Js.

(** ** Quota countdown (ChatInterface) *)

(** [formatTime]. After the guard [seconds] is a positive number, so the
    NaN case of the conversion cannot occur on the second branch. *)
Definition formatTime (seconds : Js.num) : string :=
  if negb (Js.truthy seconds) || Js.le seconds 0 then "00h 00m 00s"
  else
    match Js.to_number seconds with
    | None => "00h 00m 00s"
    | Some sec =>
        let h := sec / 3600 in
        let m := (sec mod 3600) / 60 in
        let s := sec mod 60 in
        Js.padStart (Js.toString h) 2 "0" +:+ "h " +:+
        Js.padStart (Js.toString m) 2 "0" +:+ "m " +:+
        Js.padStart (Js.toString s) 2 "0" +:+ "s"
    end.

(** The popup and countdown cells of [ChatInterface], together with the
    interval the countdown effect owns ([timer] is [true] while an interval
    is pending). *)
Record Quota : Type := mkQuota {
  showQuotaPopup : bool;
  retrySeconds : Js.num;
  countdown : string;
  timer : bool
}.

(** Initial cells: popup hidden, [retrySeconds = null], no interval; the
    display effect has already run once on mount. *)
Definition quota_init : Quota :=
  mkQuota false Js.Null (formatTime Js.Null) false.

(** The two effects keyed on [retrySeconds] and [showQuotaPopup], run after
    a render: the cleanup clears the previous interval, a new one is set
    when the popup is shown and [retrySeconds > 0], and the display is
    recomputed. *)
Definition quota_effects (q : Quota) : Quota :=
  mkQuota (showQuotaPopup q) (retrySeconds q)
          (formatTime (retrySeconds q))
          (showQuotaPopup q && Js.gt (retrySeconds q) 0).

(** The updater passed to [setRetrySeconds] by the interval callback. *)
Definition tick_update (prev : Js.num) : Js.num :=
  if Js.le prev 1 then Js.Int 0 else Js.sub prev 1.

(** One firing of the interval (nothing happens when none is pending). *)
Definition quota_tick (q : Quota) : Quota :=
  if timer q then
    quota_effects
      (mkQuota (showQuotaPopup q) (tick_update (retrySeconds q))
               (countdown q) (timer q))
  else q.

(** The three setter calls of the 429 branch of [handleSendMessage]. *)
Definition quota_activate (seconds : Js.num) (q : Quota) : Quota :=
  quota_effects (mkQuota true seconds (formatTime seconds) (timer q)).

(** Click on the overlay or on the close button. *)
Definition quota_dismiss (q : Quota) : Quota :=
  quota_effects
    (mkQuota false (retrySeconds q) (countdown q) (timer q)).

Fixpoint quota_ticks (n : nat) (q : Quota) : Quota :=
  match n with
  | O => q
  | S n' => quota_ticks n' (quota_tick q)
  end.

(** ** Speech playback (ChatInterface) *)

(** A [SpeechSynthesisUtterance]: the text handed to the synthesiser, the
    selected voice (by name) and the rate (in percent of normal speed). *)
Record Utterance : Type := mkUtterance {
  u_text : string;
  u_voice : option string;
  u_rate : Z
}.

(** The playback cells: [currentUtteranceRef.current], [isSpeaking], the
    utterance queue of [window.speechSynthesis] (head = the one being
    played) and the calls made to [onSpeakingChange], oldest first. *)
Record Speech : Type := mkSpeech {
  currentUtterance : option Utterance;
  isSpeaking : bool;
  synth : list Utterance;
  speakingNotified : list bool
}.

Definition speech_init : Speech := mkSpeech None false [] [].

(** The settings [speakText] closes over. *)
Record VoiceSettings : Type := mkVoice {
  selectedVoice : option string;
  speechRate : Z;
  autoSpeak : bool
}.

Section SpeakText.

(** [removeMd] of the remove-markdown package (not part of the
    repository). *)
Variable removeMd : string -> string.

(** The interruption block: [synth.cancel()], [setIsSpeaking(false)],
    [onSpeakingChange(false)], clear the handle. *)
Definition interrupt (sp : Speech) : Speech :=
  mkSpeech None false [] (speakingNotified sp ++ [false]).

(** [!text || !text.trim()], [text] being [None] for null/undefined. *)
Definition blank (text : option string) : bool :=
  match text with
  | None => true
  | Some t => negb (Js.nonempty t) || negb (Js.nonempty (Js.trim t))
  end.

(** The part of [speakText] after the interruption block. *)
Definition start_speech (vs : VoiceSettings) (text : option string)
    (forceSpeak : bool) (sp : Speech) : Speech :=
  if negb (autoSpeak vs) && negb forceSpeak then sp
  else if blank text then sp
  else
    let cleanText := removeMd (default EmptyString text) in
    let utterance := mkUtterance cleanText (selectedVoice vs) (speechRate vs) in
    mkSpeech (Some utterance) (isSpeaking sp)
             (synth sp ++ [utterance]) (speakingNotified sp).

(** [speakText(text, forceSpeak, isToggle)]. *)
Definition speakText (vs : VoiceSettings) (text : option string)
    (forceSpeak isToggle : bool) (sp : Speech) : Speech :=
  match currentUtterance sp with
  | Some _ =>
      let sp' := interrupt sp in
      if isToggle then sp' else start_speech vs text forceSpeak sp'
  | None => start_speech vs text forceSpeak sp
  end.

(** The [onstart] handler, run when the synthesiser starts the utterance
    at the head of its queue. *)
Definition utterance_start (sp : Speech) : Speech :=
  match synth sp with
  | [] => sp
  | _ :: _ =>
      mkSpeech (currentUtterance sp) true (synth sp)
               (speakingNotified sp ++ [true])
  end.

(** The [onend] and [onerror] handlers. Every utterance carries the same
    two closures, and they do not look at which utterance fired: they
    clear [isSpeaking], tell the avatar and clear the shared handle. *)
Definition utterance_ended (sp : Speech) : Speech :=
  mkSpeech None false (synth sp) (speakingNotified sp ++ [false]).

(** The synthesiser is done with the utterance at the head of its queue
    (it was played to its end, or failed): the utterance leaves the queue
    and its handler runs. *)
Definition utterance_finish (sp : Speech) : Speech :=
  utterance_ended
    (mkSpeech (currentUtterance sp) (isSpeaking sp) (tail (synth sp))
              (speakingNotified sp)).

(** What can happen to the playback cells: a call of [speakText], and the
    lifecycle events the synthesiser delivers. [CancelledUtteranceEnds] is
    the end or error event of an utterance that [synth.cancel()] has
    removed from the queue; the browser delivers it after the call that
    cancelled it has returned, and the handler runs all the same. *)
Inductive SpeechEvent : Type :=
| Speak (vs : VoiceSettings) (text : option string) (forceSpeak isToggle : bool)
| UtteranceStart
| UtteranceEnd
| UtteranceError
| CancelledUtteranceEnds.

Definition speech_step (sp : Speech) (e : SpeechEvent) : Speech :=
  match e with
  | Speak vs text forceSpeak isToggle => speakText vs text forceSpeak isToggle sp
  | UtteranceStart => utterance_start sp
  | UtteranceEnd => utterance_finish sp
  | UtteranceError => utterance_finish sp
  | CancelledUtteranceEnds => utterance_ended sp
  end.

Definition speech_run (evs : list SpeechEvent) (sp : Speech) : Speech :=
  fold_left speech_step evs sp.

End SpeakText.

(** ** Messages, sessions and the application shell (App) *)

Inductive Role : Type := user | assistant | error.

Definition role_name (r : Role) : string :=
  match r with
  | user => "user"
  | assistant => "assistant"
  | error => "error"
  end.

(** A transcript entry: every message object the source builds is
    [{ role, content }]. *)
Record Message : Type := mkMessage {
  role : Role;
  content : string
}.

(** Reading a property of a message object; a property the object literal
    does not define reads as [undefined] ([None]). *)
Definition prop (m : Message) (name : string) : option string :=
  if String.eqb name "role" then Some (role_name (role m))
  else if String.eqb name "content" then Some (content m)
  else None.

Module Session.
(** A catalog entry as built by [handleNewSession]. *)
Record t : Type := mk {
  id : string;
  timestamp : string;
  messageCount : Z;
  preview : string
}.
End Session.

Inductive Tab : Type := chat | documents.

(** The three [localStorage] keys; [None] = the key was never written. *)
Record Storage : Type := mkStorage {
  ai_tutor_session : option string;
  ai_tutor_messages : option (gmap string (list Message));
  ai_tutor_sessions : option (list Session.t)
}.

Definition storage_empty : Storage := mkStorage None None None.

(** The [useState] cells of [App] and the browser storage it writes. *)
Record App : Type := mkApp {
  sessionId : option string;
  activeTab : Tab;
  currentEmotion : string;
  isMascotSpeaking : bool;
  currentResponse : string;
  sessionMessages : gmap string (list Message);
  sessions : list Session.t;
  showSessionList : bool;
  localStorage : Storage
}.

Definition setSessionId (v : option string) (a : App) : App :=
  mkApp v (activeTab a) (currentEmotion a) (isMascotSpeaking a)
        (currentResponse a) (sessionMessages a) (sessions a)
        (showSessionList a) (localStorage a).

Definition setActiveTab (v : Tab) (a : App) : App :=
  mkApp (sessionId a) v (currentEmotion a) (isMascotSpeaking a)
        (currentResponse a) (sessionMessages a) (sessions a)
        (showSessionList a) (localStorage a).

Definition setCurrentEmotion (v : string) (a : App) : App :=
  mkApp (sessionId a) (activeTab a) v (isMascotSpeaking a)
        (currentResponse a) (sessionMessages a) (sessions a)
        (showSessionList a) (localStorage a).

Definition setIsMascotSpeaking (v : bool) (a : App) : App :=
  mkApp (sessionId a) (activeTab a) (currentEmotion a) v
        (currentResponse a) (sessionMessages a) (sessions a)
        (showSessionList a) (localStorage a).

Definition setCurrentResponse (v : string) (a : App) : App :=
  mkApp (sessionId a) (activeTab a) (currentEmotion a) (isMascotSpeaking a)
        v (sessionMessages a) (sessions a)
        (showSessionList a) (localStorage a).

(** [setSessionMessages(prev => f prev)]. *)
Definition setSessionMessages
    (f : gmap string (list Message) -> gmap string (list Message))
    (a : App) : App :=
  mkApp (sessionId a) (activeTab a) (currentEmotion a) (isMascotSpeaking a)
        (currentResponse a) (f (sessionMessages a)) (sessions a)
        (showSessionList a) (localStorage a).

(** [setSessions(prev => f prev)]. *)
Definition setSessions (f : list Session.t -> list Session.t) (a : App) : App :=
  mkApp (sessionId a) (activeTab a) (currentEmotion a) (isMascotSpeaking a)
        (currentResponse a) (sessionMessages a) (f (sessions a))
        (showSessionList a) (localStorage a).

Definition setShowSessionList (v : bool) (a : App) : App :=
  mkApp (sessionId a) (activeTab a) (currentEmotion a) (isMascotSpeaking a)
        (currentResponse a) (sessionMessages a) (sessions a)
        v (localStorage a).

Definition setStorage (f : Storage -> Storage) (a : App) : App :=
  mkApp (sessionId a) (activeTab a) (currentEmotion a) (isMascotSpeaking a)
        (currentResponse a) (sessionMessages a) (sessions a)
        (showSessionList a) (f (localStorage a)).

(** [localStorage.setItem('ai_tutor_session', v)]. *)
Definition store_session (v : string) (s : Storage) : Storage :=
  mkStorage (Some v) (ai_tutor_messages s) (ai_tutor_sessions s).

Definition store_messages (v : gmap string (list Message)) (s : Storage)
  : Storage :=
  mkStorage (ai_tutor_session s) (Some v) (ai_tutor_sessions s).

Definition store_sessions (v : list Session.t) (s : Storage) : Storage :=
  mkStorage (ai_tutor_session s) (ai_tutor_messages s) (Some v).

(** Truthiness of the [sessionId] cell: [null] and the empty string are
    falsy. *)
Definition truthy_id (sid : option string) : bool :=
  match sid with
  | Some s => Js.nonempty s
  | None => false
  end.

(** The property key [sessionMessages[sessionId]] uses: [null] is converted
    to the string "null". *)
Definition key_of (sid : option string) : string := default "null" sid.

(** [s => s.messageCount > 0]. *)
Definition has_messages (s : Session.t) : bool := 0 <? Session.messageCount s.

(** The entry [handleNewSession] archives for the session of the render it
    closes over, if any: the session id must be truthy, its transcript
    non-empty and no entry with that id may be in [sessions]. *)
Definition archived_entry (render : App) (now : string) : option Session.t :=
  if truthy_id (sessionId render) then
    match sessionMessages render !! key_of (sessionId render) with
    | Some msgs =>
        if 0 <? Z.of_nat (length msgs) then
          match List.find
                  (fun s => String.eqb (Session.id s) (key_of (sessionId render)))
                  (sessions render) with
          | Some _ => None
          | None =>
              Some (Session.mk
                      (key_of (sessionId render))
                      now
                      (Z.of_nat (length msgs))
                      (match msgs with
                       | m :: _ => String.substring 0 50 (content m) +:+ "..."
                       | [] => "undefined..."
                       end))
          end
        else None
    | None => None
    end
  else None.

(** [handleNewSession], run from the render [render] on the pending state
    [st] ([st = render] when it is the click handler itself).
    [newSessionId] is the generated identifier and [now] the ISO time. *)
Definition handleNewSession (render : App) (newSessionId now : string)
    (st : App) : App :=
  let st1 :=
    match archived_entry render now with
    | Some newSession => setSessions (fun prev => newSession :: prev) st
    | None => st
    end in
  setActiveTab chat
    (setIsMascotSpeaking false
       (setCurrentResponse EmptyString
          (setCurrentEmotion "neutral"
             (setStorage (store_session newSessionId)
                (setSessionId (Some newSessionId) st1))))).

(** [handleLoadSession]. *)
Definition handleLoadSession (loadSessionId : string) (st : App) : App :=
  setIsMascotSpeaking false
    (setCurrentResponse EmptyString
       (setCurrentEmotion "neutral"
          (setActiveTab chat
             (setShowSessionList false
                (setStorage (store_session loadSessionId)
                   (setSessionId (Some loadSessionId) st)))))).

(** [handleDeleteSession]: the nested [handleNewSession] still reads the
    cells of the render the handler was created in. *)
Definition handleDeleteSession (render : App)
    (deleteSessionId newSessionId now : string) : App :=
  let st1 :=
    setSessionMessages (fun prev => delete deleteSessionId prev)
      (setSessions
         (fun prev =>
            List.filter
              (fun s => negb (String.eqb (Session.id s) deleteSessionId)) prev)
         render) in
  if bool_decide (sessionId render = Some deleteSessionId)
  then handleNewSession render newSessionId now st1
  else st1.

(** [updateSessionMessages] as created in a render whose [sessionId] was
    [sid], applied to the pending state [st]. *)
Definition updateSessionMessages (sid : option string)
    (newMessages : list Message) (st : App) : App :=
  setSessionMessages (fun prev => <[key_of sid := newMessages]> prev) st.

(** The [messages] prop handed to the chat component:
    [sessionMessages[sessionId] || []]. *)
Definition messages_prop (a : App) : list Message :=
  default [] (sessionMessages a !! key_of (sessionId a)).

(** What the sessions persistence effect writes, if it writes. *)
Definition sessions_write (l : list Session.t) : option (list Session.t) :=
  if (0 <? Z.of_nat (length l)) then
    let validSessions := List.filter has_messages l in
    if (0 <? Z.of_nat (length validSessions)) then Some validSessions else None
  else None.

(** The two persistence effects of [App], run after a render. *)
Definition persist (a : App) : App :=
  let a1 :=
    if (0 <? Z.of_nat (size (sessionMessages a)))
    then setStorage (store_messages (sessionMessages a)) a
    else a in
  match sessions_write (sessions a1) with
  | Some valid => setStorage (store_sessions valid) a1
  | None => a1
  end.

(** Mounting [App] over a given storage: the initial cells, then the
    loading effect (only entries with messages are loaded). *)
Definition mount (stor : Storage) : App :=
  mkApp (if truthy_id (ai_tutor_session stor) then ai_tutor_session stor
         else None)
        chat "neutral" false EmptyString
        (default ∅ (ai_tutor_messages stor))
        (match ai_tutor_sessions stor with
         | Some parsed => List.filter has_messages parsed
         | None => []
         end)
        false stor.

(** A page load. The chat component is rendered with [sessionId = null]
    and its effects run before those of [App]: its initialisation effect
    calls [setSessionId] with the generated identifier and stores it, and
    only then does the loading effect of [App] read the storage. *)
Definition page_load (newSessionId : string) (stor : Storage) : App :=
  setSessionId (Some newSessionId) (mount (store_session newSessionId stor)).

(** [handleSpeakingChange], without its deferred reset. *)
Definition handleSpeakingChange (speaking : bool) (a : App) : App :=
  setIsMascotSpeaking speaking a.

(** [handleEmotionChange] and [handleResponseChange]. *)
Definition handleEmotionChange (emotion : string) (a : App) : App :=
  setCurrentEmotion emotion a.

Definition handleResponseChange (response : string) (a : App) : App :=
  setCurrentResponse response a.

(** ** The chat component and one conversational turn (ChatInterface) *)

(** The [useState] cells and refs of [ChatInterface]. [recognition] tells
    whether [recognitionRef.current] is set, [capturing] whether the
    recognition engine has been started and not stopped. *)
Record Chat : Type := mkChat {
  inputValue : string;
  isLoading : bool;
  selectedModel : string;
  quota : Quota;
  isListening : bool;
  recognition : bool;
  capturing : bool;
  speech : Speech;
  voice : VoiceSettings
}.

Definition setInputValue (v : string) (c : Chat) : Chat :=
  mkChat v (isLoading c) (selectedModel c) (quota c) (isListening c)
         (recognition c) (capturing c) (speech c) (voice c).

Definition setIsLoading (v : bool) (c : Chat) : Chat :=
  mkChat (inputValue c) v (selectedModel c) (quota c) (isListening c)
         (recognition c) (capturing c) (speech c) (voice c).

Definition setQuota (f : Quota -> Quota) (c : Chat) : Chat :=
  mkChat (inputValue c) (isLoading c) (selectedModel c) (f (quota c))
         (isListening c) (recognition c) (capturing c) (speech c) (voice c).

Definition setIsListening (v : bool) (c : Chat) : Chat :=
  mkChat (inputValue c) (isLoading c) (selectedModel c) (quota c) v
         (recognition c) (capturing c) (speech c) (voice c).

Definition setCapturing (v : bool) (c : Chat) : Chat :=
  mkChat (inputValue c) (isLoading c) (selectedModel c) (quota c)
         (isListening c) (recognition c) v (speech c) (voice c).

Definition setSpeech (f : Speech -> Speech) (c : Chat) : Chat :=
  mkChat (inputValue c) (isLoading c) (selectedModel c) (quota c)
         (isListening c) (recognition c) (capturing c) (f (speech c))
         (voice c).

Definition setVoice (f : VoiceSettings -> VoiceSettings) (c : Chat) : Chat :=
  mkChat (inputValue c) (isLoading c) (selectedModel c) (quota c)
         (isListening c) (recognition c) (capturing c) (speech c)
         (f (voice c)).

(** A freshly mounted component: [MODELS.GEMINI_FLASH], rate 1.0, the
    stored auto-speak preference (default [true]). *)
Definition chat_init (hasRecognition : bool) (savedAutoSpeak : option bool)
  : Chat :=
  mkChat EmptyString false "gemini-2.5-flash" quota_init false hasRecognition false
         speech_init (mkVoice None 100 (default true savedAutoSpeak)).

(** The body of the POST to [/chat]. *)
Record Request : Type := mkRequest {
  question : string;
  session_id : option string;
  model : string
}.

(** [response.data] of a successful call; an absent field is [None]. *)
Record ResponseData : Type := mkResponse {
  answer : string;
  emotion : option string;
  r_session_id : option string
}.

(** [error.response.data.detail] as parsed from JSON. An object is
    represented by the two properties the client may read. *)
Inductive Detail : Type :=
| DUndefined
| DNull
| DBoolean (b : bool)
| DNumber (z : Z)
| DString (s : string)
| DArray
| DObject (message : option string) (retry_after_seconds : Js.num).

(** [typeof detail === 'object']. *)
Definition typeof_object (d : Detail) : bool :=
  match d with
  | DNull | DArray | DObject _ _ => true
  | _ => false
  end.

(** [error.response] when the server answered. *)
Record ErrorResponse : Type := mkErrorResponse {
  status : Z;
  detail : Detail
}.

(** How the awaited call ends: resolved with data, or rejected (with or
    without [error.response]). *)
Inductive Outcome : Type :=
| Resolved (data : ResponseData)
| Rejected (response : option ErrorResponse).

(** What the continuation of [handleSendMessage] keeps from the render in
    which the submit happened: the [sessionId] prop (also the one
    [setMessages] closes over), [newMessages], the request, and the
    settings [speakText] was created with. *)
Record Turn : Type := mkTurn {
  t_sessionId : option string;
  t_newMessages : list Message;
  t_request : Request;
  t_voice : VoiceSettings
}.

(** The [setMessages] prop of the captured render. *)
Definition setMessages (t : Turn) (msgs : list Message) (a : App) : App :=
  updateSessionMessages (t_sessionId t) msgs a.

(** [handleSendMessage] up to the [await]: the guard, stopping capture,
    the optimistic append, clearing the input, [setIsLoading(true)]. The
    third component is the dispatched turn, if any. *)
Definition handleSendMessage_submit (c : Chat) (a : App)
  : Chat * App * option Turn :=
  if negb (Js.nonempty (Js.trim (inputValue c))) || isLoading c
  then (c, a, None)
  else
    let c1 :=
      if isListening c && recognition c
      then setIsListening false (setCapturing false c)
      else c in
    let userMessage := mkMessage user (inputValue c) in
    let newMessages := messages_prop a ++ [userMessage] in
    let t := mkTurn (sessionId a) newMessages
                    (mkRequest (inputValue c) (sessionId a) (selectedModel c))
                    (voice c) in
    (setIsLoading true (setInputValue EmptyString c1),
     setMessages t newMessages a,
     Some t).

(** [e && onEmotionChange(e)] for a possibly absent emotion. *)
Definition notify_emotion (e : option string) (a : App) : App :=
  match e with
  | Some s => if Js.nonempty s then handleEmotionChange s a else a
  | None => a
  end.

(** [detail.retry_after_seconds] ([None] = the read throws). *)
Definition read_retry_after (d : Detail) : option Js.num :=
  match d with
  | DObject _ r => Some r
  | DArray => Some Js.Undefined
  | _ => None
  end.

(** The [seconds] of the 429 branch ([None] = a TypeError is thrown). *)
Definition retry_seconds (d : Detail) : option Js.num :=
  if typeof_object d then read_retry_after d else Some (Js.Int 3600).

(** The state after the continuation of [handleSendMessage] has run,
    the text whose reading was scheduled by [setTimeout], if any, and
    whether an exception escaped the [catch] block. *)
Record Settled : Type := mkSettled {
  s_chat : Chat;
  s_app : App;
  s_deferred : option string;
  s_threw : bool
}.

Definition quota_message : Message :=
  mkMessage error "⚠️ API limit reached. Check the popup for details.".

Definition failure_message : Message :=
  mkMessage error "Failed to get response. Please try again.".

(** [handleSendMessage] from the [await] on. *)
Definition handleSendMessage_settle (t : Turn) (o : Outcome)
    (c : Chat) (a : App) : Settled :=
  match o with
  | Resolved data =>
      let aiMessage := mkMessage assistant (answer data) in
      let a1 := setMessages t (t_newMessages t ++ [aiMessage]) a in
      let a2 := notify_emotion (emotion data) a1 in
      let a3 := handleResponseChange (answer data) a2 in
      let a4 :=
        if negb (truthy_id (t_sessionId t)) && truthy_id (r_session_id data)
        then setStorage (store_session (key_of (r_session_id data)))
               (setSessionId (r_session_id data) a3)
        else a3 in
      mkSettled (setIsLoading false c) a4
                (if autoSpeak (t_voice t) then Some (answer data) else None)
                false
  | Rejected (Some resp) =>
      if status resp =? 429 then
        match retry_seconds (detail resp) with
        | Some seconds =>
            let c1 := setQuota (quota_activate seconds) c in
            let a1 := setMessages t (t_newMessages t ++ [quota_message]) a in
            mkSettled (setIsLoading false c1)
                      (handleEmotionChange "neutral" a1) None false
        | None => mkSettled (setIsLoading false c) a None true
        end
      else
        let a1 := setMessages t (t_newMessages t ++ [failure_message]) a in
        mkSettled (setIsLoading false c)
                  (handleEmotionChange "neutral" a1) None false
  | Rejected None =>
      let a1 := setMessages t (t_newMessages t ++ [failure_message]) a in
      mkSettled (setIsLoading false c)
                (handleEmotionChange "neutral" a1) None false
  end.

Section Component.

Variable removeMd : string -> string.

(** What can happen to a mounted chat component. *)
Inductive ChatEvent : Type :=
| Change (value : string)
| SpeechResult (finalTranscript : string)
| RecognitionEnd
| ToggleListening
| Submit
| Settle (t : Turn) (o : Outcome)
| DeferredSpeak (vs : VoiceSettings) (text : string)
| SpeakButton (text : string)
| Playback (e : SpeechEvent)
| Tick
| Dismiss
| SetAutoSpeak (b : bool).

(** [handleResult]: a non-empty final transcript is appended to the
    input. *)
Definition handleResult (finalTranscript : string) (c : Chat) : Chat :=
  if Js.nonempty finalTranscript
  then setInputValue (inputValue c +:+ finalTranscript) c
  else c.

(** [toggleListening]. *)
Definition toggleListening (c : Chat) : Chat :=
  if negb (recognition c) then c
  else if isListening c then setCapturing false c
  else setIsListening true (setCapturing true c).

(** One event; the list holds the turns the event dispatched. *)
Definition chat_step (s : Chat * App) (e : ChatEvent)
  : Chat * App * list Turn :=
  let '(c, a) := s in
  match e with
  | Change value => (setInputValue value c, a, [])
  | SpeechResult ft => (handleResult ft c, a, [])
  | RecognitionEnd => (setIsListening false (setCapturing false c), a, [])
  | ToggleListening => (toggleListening c, a, [])
  | Submit =>
      let '(c', a', t) := handleSendMessage_submit c a in
      (c', a', match t with Some t => [t] | None => [] end)
  | Settle t o =>
      let r := handleSendMessage_settle t o c a in
      (s_chat r, s_app r, [])
  | DeferredSpeak vs text =>
      (setSpeech (speakText removeMd vs (Some text) true false) c, a, [])
  | SpeakButton text =>
      (setSpeech (speakText removeMd (voice c) (Some text) true true) c, a, [])
  | Playback ev => (setSpeech (fun sp => speech_step removeMd sp ev) c, a, [])
  | Tick => (setQuota quota_tick c, a, [])
  | Dismiss => (setQuota quota_dismiss c, a, [])
  | SetAutoSpeak b =>
      (setVoice (fun v => mkVoice (selectedVoice v) (speechRate v) b) c, a, [])
  end.

(** A sequence of events; the dispatched turns are collected in order. *)
Fixpoint chat_run (evs : list ChatEvent) (s : Chat * App)
  : Chat * App * list Turn :=
  match evs with
  | [] => (s, [])
  | e :: rest =>
      let '(s1, ts1) := chat_step s e in
      let '(s2, ts2) := chat_run rest s1 in
      (s2, ts1 ++ ts2)
  end.

Definition is_settle (e : ChatEvent) : bool :=
  match e with Settle _ _ => true | _ => false end.

End Component.

(** ** The session store as a transition system *)

(** The operations on the session store, as events of [App]: the three
    session handlers, a write of a transcript through [setMessages], the
    adoption of a session identifier by the chat component (its
    initialisation effect, or from a response), and a reload of the page,
    for which the chat component generates [newSessionId]. *)
Inductive AppOp : Type :=
| NewSession (newSessionId now : string)
| LoadSession (loadSessionId : string)
| DeleteSession (deleteSessionId newSessionId now : string)
| AppendMessage (sid : option string) (newMessages : list Message)
| AdoptSession (sid : string)
| Reload (newSessionId : string).

(** One operation followed by the persistence effects. *)
Definition app_step (a : App) (op : AppOp) : App :=
  persist
    match op with
    | NewSession newSessionId now => handleNewSession a newSessionId now a
    | LoadSession loadSessionId => handleLoadSession loadSessionId a
    | DeleteSession deleteSessionId newSessionId now =>
        handleDeleteSession a deleteSessionId newSessionId now
    | AppendMessage sid newMessages => updateSessionMessages sid newMessages a
    | AdoptSession sid =>
        setStorage (store_session sid) (setSessionId (Some sid) a)
    | Reload newSessionId => page_load newSessionId (localStorage a)
    end.

Definition app_run (ops : list AppOp) (a : App) : App :=
  fold_left app_step ops a.

(** ** Notions used in the statements *)

(** The decimal digits of [x], with a leading zero when there is only
    one. *)
Definition zero_padded (x : Z) : string :=
  if x <? 10 then String "0" (Js.toString x) else Js.toString x.

(** The cells while the popup is shown with [s] seconds left. *)
Definition counting (s : Z) : Quota :=
  mkQuota true (Js.Int s) (formatTime (Js.Int s)) (0 <? s).

(** The handle [currentUtteranceRef] tracks the synthesiser queue: the
    queue holds the utterance the handle points to and nothing else. *)
Definition tracked (sp : Speech) : Prop :=
  synth sp = match currentUtterance sp with
             | Some u => [u]
             | None => []
             end.

(** The text is absent or consists of white space only. *)
Definition only_spaces (text : option string) : bool :=
  match text with
  | None => true
  | Some t => forallb Js.is_space (list_ascii_of_string t)
  end.

(** The identifiers of a catalog, in order. *)
Definition ids (l : list Session.t) : list string := List.map Session.id l.

(** Every entry counts at least one message. *)
Definition counted (l : list Session.t) : Prop :=
  Forall (fun s => 1 <= Session.messageCount s) l.

(** The catalog stored under [ai_tutor_sessions] (empty when absent). *)
Definition stored_sessions (stor : Storage) : list Session.t :=
  default [] (ai_tutor_sessions stor).

(** ** A concrete stripping function and sample data *)

(** One rewriting pass of remove-markdown, [replace(/<[^>]*>/g, '')],
    used as the stripping function where a concrete one is needed. *)
Fixpoint has_gt (s : string) : bool :=
  match s with
  | EmptyString => false
  | String c rest => if Ascii.eqb c ">" then true else has_gt rest
  end.

Fixpoint strip_tags_from (skipping : bool) (s : string) : string :=
  match s with
  | EmptyString => EmptyString
  | String c rest =>
      if skipping then
        if Ascii.eqb c ">" then strip_tags_from false rest
        else strip_tags_from true rest
      else if Ascii.eqb c "<" && has_gt rest then strip_tags_from true rest
      else String c (strip_tags_from false rest)
  end.

Definition strip_tags (s : string) : string := strip_tags_from false s.

(** A playback in progress. *)
Definition sample_voice : VoiceSettings :=
  mkVoice (Some "Google US English") 100 true.



(** A sample history: a question is asked in session "s1", a new session
    "s2" is opened, asked in, and left for a third. *)
Definition sample_ops : list AppOp :=
  [ AdoptSession "s1";
    AppendMessage (Some "s1") [mkMessage user "What is osmosis?"];
    NewSession "s2" "2026-01-01T10:00:00.000Z";
    AppendMessage (Some "s2") [mkMessage user "And diffusion?"];
    NewSession "s3" "2026-01-01T11:00:00.000Z" ].

(** A sample turn: the learner is in session "s1" and has typed a
    question. *)
Definition sample_app : App :=
  app_step (mount storage_empty) (AdoptSession "s1").

Definition sample_chat : Chat :=
  setInputValue "What is osmosis?" (chat_init true None).

Definition sample_response : ResponseData :=
  mkResponse "Water moves across a membrane." (Some "explaining") (Some "s1").

(** The turn dispatched by submitting [sample_chat] in [sample_app], and
    the state the submit leaves. *)
Definition sample_turn : Turn :=
  mkTurn (Some "s1") [mkMessage user "What is osmosis?"]
         (mkRequest "What is osmosis?" (Some "s1") "gemini-2.5-flash")
         (mkVoice None 100 true).

Definition sample_sending_chat : Chat :=
  setIsLoading true (setInputValue EmptyString sample_chat).

Definition sample_sending_app : App :=
  setMessages sample_turn [mkMessage user "What is osmosis?"] sample_app.


(** ** Further notions used in the statements *)

(** A session is current and its identifier is the stored one. *)
Definition id_in_sync (a : App) : Prop :=
  exists s, sessionId a = Some s /\
            ai_tutor_session (localStorage a) = Some s.

(** ** The quota cells as a transition system *)

(** What happens to the quota cells: the 429 branch activates them, the
    interval fires, the user closes the popup. *)
Inductive QuotaEvent : Type :=
| Activate (seconds : Js.num)
| IntervalFires
| ClosePopup.

Definition quota_step (q : Quota) (e : QuotaEvent) : Quota :=
  match e with
  | Activate seconds => quota_activate seconds q
  | IntervalFires => quota_tick q
  | ClosePopup => quota_dismiss q
  end.

Definition quota_run (evs : list QuotaEvent) (q : Quota) : Quota :=
  fold_left quota_step evs q.

(** The speaking flag is consistent: the avatar was last told its current
    value, and it is only set while the synthesiser has an utterance
    queued. *)
Definition speech_consistent (sp : Speech) : Prop :=
  isSpeaking sp = default false (last (speakingNotified sp)) /\
  (isSpeaking sp = true -> synth sp <> []).

(** ** Speech recognition results and voices (ChatInterface) *)

(** One entry of [event.results]: the transcript of its first alternative
    and whether the entry is final. *)
Record RecognitionResult : Type := mkResult {
  transcript : string;
  isFinal : bool
}.

(** A result event of the recognition engine. *)
Record RecognitionEvent : Type := mkRecognitionEvent {
  resultIndex : nat;
  results : list RecognitionResult
}.

(** The [for] loop of the [onresult] handler over the entries that remain,
    with the accumulator [finalTranscript]. *)
Fixpoint final_loop (rest : list RecognitionResult) (finalTranscript : string)
  : string :=
  match rest with
  | [] => finalTranscript
  | r :: rest' =>
      final_loop rest'
        (if isFinal r then finalTranscript +:+ (transcript r +:+ " ")
         else finalTranscript)
  end.

(** The [onresult] handler: the loop from [event.resultIndex], then the
    update of the input. *)
Definition onresult (event : RecognitionEvent) (c : Chat) : Chat :=
  handleResult
    (final_loop (drop (resultIndex event) (results event)) EmptyString) c.

(** The final segments of an event, each followed by a space, in order. *)
Definition spoken (event : RecognitionEvent) : string :=
  String.concat EmptyString
    (List.map (fun r => transcript r +:+ " ")
       (List.filter isFinal (drop (resultIndex event) (results event)))).

(** A voice of the synthesiser. *)
Record SynthVoice : Type := mkSynthVoice {
  v_name : string;
  v_lang : string
}.

(** [voice.lang.startsWith('en-US')]. *)
Definition is_en_US (v : SynthVoice) : bool := String.prefix "en-US" (v_lang v).

(** The voice [loadVoices] selects:
    [availableVoices.find(...) || availableVoices[0]]. *)
Definition defaultVoice (availableVoices : list SynthVoice)
  : option SynthVoice :=
  match List.find is_en_US availableVoices with
  | Some v => Some v
  | None => head availableVoices
  end.

(** Capture is consistent with the cells: the engine only captures while
    [isListening] is set, which only happens when the browser has speech
    recognition. *)
Definition capture_consistent (c : Chat) : Prop :=
  (capturing c = true -> isListening c = true) /\
  (isListening c = true -> recognition c = true).

(** ** Upload validation (DocumentManager) *)

Module Upload.

(** [String.prototype.lastIndexOf(ch)] for a one-character search string,
    [i] being the index of the first character of [s]; [-1] when [ch]
    does not occur. *)
Fixpoint lastIndexOf_from (ch : ascii) (s : string) (i : Z) : Z :=
  match s with
  | EmptyString => -1
  | String c rest =>
      let later := lastIndexOf_from ch rest (i + 1) in
      if later =? -1 then (if Ascii.eqb c ch then i else -1) else later
  end.

Definition lastIndexOf (ch : ascii) (s : string) : Z :=
  lastIndexOf_from ch s 0.

Fixpoint string_drop (n : nat) (s : string) : string :=
  match n, s with
  | O, _ => s
  | S n', String _ rest => string_drop n' rest
  | S _, EmptyString => EmptyString
  end.

(** [String.prototype.substring(start)]: a negative start counts as 0, a
    start beyond the end gives the empty string. *)
Definition substring (start : Z) (s : string) : string :=
  string_drop (Z.to_nat (Z.max 0 start)) s.

(** Lower-casing of one code unit below 256: A-Z and the accented capitals
    U+00C0-U+00DE (but not the multiplication sign U+00D7) move up by
    32. *)
Definition lower_char (c : ascii) : ascii :=
  let n := nat_of_ascii c in
  if ((65 <=? n) && (n <=? 90))%nat
     || ((192 <=? n) && (n <=? 222) && negb (n =? 215))%nat
  then ascii_of_nat (n + 32)
  else c.

(** [String.prototype.toLowerCase()]. *)
Fixpoint toLowerCase (s : string) : string :=
  match s with
  | EmptyString => EmptyString
  | String c rest => String (lower_char c) (toLowerCase rest)
  end.

(** [Array.prototype.includes] on strings. *)
Definition includes (l : list string) (x : string) : bool :=
  existsb (fun y => String.eqb y x) l.

Definition validExtensions : list string := [".pdf"; ".docx"; ".html"].

Definition maxSize : Z := 10 * 1024 * 1024.

(** The chosen file, as far as the handler looks at it. *)
Record File : Type := mkFile {
  name : string;
  size : Z
}.

(** How [handleFileUpload] ends before any request is made. *)
Inductive Check : Type :=
| NoFile
| InvalidType
| TooLarge
| Accepted.

(** The validation part of [handleFileUpload] ([file] is
    [e.target.files[0]]). *)
Definition validate (file : option File) : Check :=
  match file with
  | None => NoFile
  | Some f =>
      let fileExtension :=
        toLowerCase (substring (lastIndexOf "." (name f)) (name f)) in
      if negb (includes validExtensions fileExtension) then InvalidType
      else if maxSize <? size f then TooLarge
      else Accepted
  end.

(** No character of [s] is a dot. *)
Definition dotless (s : string) : bool :=
  forallb (fun c => negb (Ascii.eqb c ".")) (list_ascii_of_string s).

End Upload.

(** ** The avatar (Mascot, config) *)

Module Mascot.

(** The values of [EMOTIONS] in config.js. *)
Definition EMOTIONS : list string :=
  ["happy"; "explaining"; "thinking"; "encouraging"; "neutral"].

(** The props the component looks at and its cells; [speechInterval]
    tells whether the mouth interval is pending. *)
Record t : Type := mk {
  emotion : string;
  isSpeaking : bool;
  displayEmotion : string;
  mouthMoving : bool;
  speechInterval : bool
}.

(** The effect keyed on [isSpeaking], cleanup of the previous run
    included. *)
Definition speaking_effect (isSpeaking : bool) (m : t) : t :=
  mk (emotion m) isSpeaking (displayEmotion m) isSpeaking isSpeaking.

(** Mounting with the given props: the initial cells, then both
    effects. *)
Definition mount (emotion : string) (isSpeaking : bool) : t :=
  speaking_effect isSpeaking (mk emotion isSpeaking emotion false false).

(** A render with new props: each effect runs only when its prop has
    changed; the emotion effect copies the prop. *)
Definition render (emotion' : string) (isSpeaking' : bool) (m : t) : t :=
  let m1 := mk emotion' (isSpeaking m)
               (if String.eqb emotion' (emotion m) then displayEmotion m
                else emotion')
               (mouthMoving m) (speechInterval m) in
  if Bool.eqb isSpeaking' (isSpeaking m) then m1
  else speaking_effect isSpeaking' m1.

(** The interval callback, [setMouthMoving(prev => !prev)]. *)
Definition interval_fires (m : t) : t :=
  if speechInterval m
  then mk (emotion m) (isSpeaking m) (displayEmotion m)
          (negb (mouthMoving m)) (speechInterval m)
  else m.

Inductive Event : Type :=
| Render (emotion : string) (isSpeaking : bool)
| IntervalFires.

Definition step (m : t) (e : Event) : t :=
  match e with
  | Render emotion' isSpeaking' => render emotion' isSpeaking' m
  | IntervalFires => interval_fires m
  end.

Definition run (evs : list Event) (m : t) : t := fold_left step evs m.

(** [getEyeStyle]. *)
Definition getEyeStyle (m : t) : string :=
  if String.eqb (displayEmotion m) "happy" then "eyes-happy"
  else if String.eqb (displayEmotion m) "thinking" then "eyes-thinking"
  else if String.eqb (displayEmotion m) "encouraging" then "eyes-encouraging"
  else if String.eqb (displayEmotion m) "explaining" then "eyes-explaining"
  else "eyes-neutral".

(** [getMouthStyle]. *)
Definition getMouthStyle (m : t) : string :=
  if mouthMoving m then "mouth-speaking"
  else if String.eqb (displayEmotion m) "happy" then "mouth-happy"
  else if String.eqb (displayEmotion m) "thinking" then "mouth-thinking"
  else if String.eqb (displayEmotion m) "encouraging" then "mouth-encouraging"
  else if String.eqb (displayEmotion m) "explaining" then "mouth-explaining"
  else "mouth-neutral".

(** The emotion the face shows for a label: the label itself when it is
    one of [EMOTIONS], "neutral" otherwise. *)
Definition shown (label : string) : string :=
  if existsb (String.eqb label) EMOTIONS then label else "neutral".

End Mascot.
(** * Properties *)

(** ** Strings and time formatting *)

Example formatTime_3725 : formatTime (Js.Int 3725) = "01h 02m 05s".
Proof. reflexivity. Qed.

Example formatTime_big : formatTime (Js.Int 360000) = "100h 00m 00s".
Proof. reflexivity. Qed.

Example trim_ex : Js.trim "  a b  " = "a b".
Proof. reflexivity. Qed.

Lemma trimEnd_nil_iff (s : string) :
  Js.trimEnd s = EmptyString <-> forallb Js.is_space (list_ascii_of_string s) = true.
Proof.
  induction s as [|c s IH]; simpl; [tauto|].
  destruct (Js.trimEnd s) eqn:E.
  - destruct (Js.is_space c); simpl.
    + tauto.
    + split; discriminate.
  - split; [discriminate|].
    intros H. apply andb_prop in H as [_ H]. apply IH in H. discriminate.
Qed.

Lemma padStart_two_digits (x : Z) :
  0 <= x < 100 -> String.length (Js.padStart (Js.toString x) 2 "0") = 2%nat.
Proof.
  intros Hx.
  assert (Hall : forallb
            (fun n => Nat.eqb
               (String.length (Js.padStart (Js.toString (Z.of_nat n)) 2 "0")) 2)
            (seq 0 100) = true) by (vm_compute; reflexivity).
  rewrite forallb_forall in Hall.
  specialize (Hall (Z.to_nat x)).
  rewrite Z2Nat.id in Hall by lia.
  apply Nat.eqb_eq, Hall, in_seq. lia.
Qed.

Lemma toString_long (x : Z) :
  10 <= x -> (2 <= String.length (Js.toString x))%nat.
Proof.
  intros Hx. destruct x as [|p|p]; try lia.
  unfold Js.toString. simpl.
  pose proof (DecimalPos.Unsigned.of_to p) as Hp.
  destruct (Pos.to_uint p) as [|d|d|d|d|d|d|d|d|d|d] eqn:E;
    [simpl in Hp; discriminate|..];
    destruct d; simpl; try lia; exfalso; vm_compute in Hp;
    first [discriminate | injection Hp as Hp; subst p; lia].
Qed.

Lemma padStart_zero_padded (x : Z) :
  0 <= x -> Js.padStart (Js.toString x) 2 "0" = zero_padded x.
Proof.
  intros Hx. unfold zero_padded.
  destruct (x <? 10) eqn:E.
  - apply Z.ltb_lt in E.
    assert (Hall : forallb
              (fun n => String.eqb
                 (Js.padStart (Js.toString (Z.of_nat n)) 2 "0")
                 (String "0" (Js.toString (Z.of_nat n))))
              (seq 0 10) = true) by (vm_compute; reflexivity).
    rewrite forallb_forall in Hall.
    specialize (Hall (Z.to_nat x)).
    rewrite Z2Nat.id in Hall by lia.
    apply String.eqb_eq, Hall, in_seq. lia.
  - apply Z.ltb_ge in E. pose proof (toString_long x E) as Hl.
    unfold Js.padStart.
    destruct (2 <=? String.length (Js.toString x))%nat eqn:E2; [reflexivity|].
    apply Nat.leb_gt in E2. lia.
Qed.

Lemma formatTime_positive (n : Z) :
  0 < n ->
  formatTime (Js.Int n) =
    zero_padded (n / 3600) +:+ "h " +:+
    zero_padded ((n mod 3600) / 60) +:+ "m " +:+
    zero_padded (n mod 60) +:+ "s".
Proof.
  intros Hn. unfold formatTime, Js.truthy, Js.le, Js.to_number.
  replace (n =? 0) with false by (symmetry; apply Z.eqb_neq; lia).
  replace (n <=? 0) with false by (symmetry; apply Z.leb_gt; lia).
  simpl.
  rewrite !padStart_zero_padded; [reflexivity| | |].
  - apply Z.mod_pos_bound; lia.
  - apply Z.div_pos; [apply Z.mod_pos_bound|]; lia.
  - apply Z.div_pos; lia.
Qed.

Lemma formatTime_nonpositive (z : Z) :
  z <= 0 -> formatTime (Js.Int z) = "00h 00m 00s".
Proof.
  intros Hz. unfold formatTime, Js.truthy, Js.le, Js.to_number.
  destruct (z =? 0) eqn:E0; [reflexivity|].
  replace (z <=? 0) with true by (symmetry; apply Z.leb_le; lia).
  reflexivity.
Qed.

(** C9. [formatTime] is a total function that clamps at zero: on [null],
    on [undefined], on zero and on every negative number it returns
    "00h 00m 00s"; on every positive integer [n] it returns the hours
    [h], minutes [m] and seconds [s] with [n = 3600 h + 60 m + s],
    [m, s < 60], each written in decimal with a leading zero when below
    ten, so that minutes and seconds always take two characters. *)
Theorem C9_formatTime_total_and_clamped :
  formatTime Js.Null = "00h 00m 00s" /\
  formatTime Js.Undefined = "00h 00m 00s" /\
  (forall k : nat, formatTime (Js.Int (- Z.of_nat k)) = "00h 00m 00s") /\
  (forall p : positive,
      exists h m s : Z,
        Z.pos p = 3600 * h + 60 * m + s /\
        0 <= h /\ 0 <= m < 60 /\ 0 <= s < 60 /\
        formatTime (Js.Int (Z.pos p)) =
          zero_padded h +:+ "h " +:+ zero_padded m +:+ "m " +:+
          zero_padded s +:+ "s" /\
        String.length (zero_padded m) = 2%nat /\
        String.length (zero_padded s) = 2%nat).
Proof.
  split; [reflexivity|]. split; [reflexivity|]. split.
  - intros k. apply formatTime_nonpositive. lia.
  - intros p. set (n := Z.pos p).
    exists (n / 3600), ((n mod 3600) / 60), (n mod 60).
    assert (Hm : 0 <= (n mod 3600) / 60 < 60).
    { pose proof (Z.mod_pos_bound n 3600 ltac:(lia)).
      split; [apply Z.div_pos; lia|apply Z.div_lt_upper_bound; lia]. }
    assert (Hs : 0 <= n mod 60 < 60) by (apply Z.mod_pos_bound; lia).
    split.
    { pose proof (Z.div_mod n 3600 ltac:(lia)) as H1.
      pose proof (Z.div_mod (n mod 3600) 60 ltac:(lia)) as H2.
      replace ((n mod 3600) mod 60) with (n mod 60) in H2; [lia|].
      symmetry. apply Z.mod_mod_divide. exists 60. reflexivity. }
    split; [apply Z.div_pos; lia|].
    split; [exact Hm|]. split; [exact Hs|].
    split; [apply formatTime_positive; lia|].
    rewrite <- !padStart_zero_padded by lia.
    split; apply padStart_two_digits; lia.
Qed.

(** ** Quota countdown *)

Lemma quota_activate_counting (s : Z) (q : Quota) :
  quota_activate (Js.Int s) q = counting s.
Proof. reflexivity. Qed.

Lemma quota_tick_counting (s : Z) :
  0 <= s -> quota_tick (counting s) = counting (Z.max 0 (s - 1)).
Proof.
  intros Hs. unfold quota_tick, counting. simpl.
  destruct (0 <? s) eqn:E.
  - apply Z.ltb_lt in E.
    unfold quota_effects, tick_update, Js.le, Js.sub. simpl.
    destruct (s <=? 1) eqn:E1; simpl.
    + apply Z.leb_le in E1. replace (Z.max 0 (s - 1)) with 0 by lia.
      reflexivity.
    + apply Z.leb_gt in E1. replace (Z.max 0 (s - 1)) with (s - 1) by lia.
      reflexivity.
  - apply Z.ltb_ge in E. replace (Z.max 0 (s - 1)) with s by lia.
    replace (0 <? s) with false by (symmetry; apply Z.ltb_ge; lia).
    reflexivity.
Qed.

Lemma quota_ticks_counting (n : nat) (s : Z) :
  0 <= s -> quota_ticks n (counting s) = counting (Z.max 0 (s - Z.of_nat n)).
Proof.
  revert s. induction n as [|n IH]; intros s Hs.
  - simpl. f_equal. lia.
  - cbn [quota_ticks]. rewrite quota_tick_counting by exact Hs.
    rewrite IH by lia. f_equal. lia.
Qed.

(** C3. A countdown activated with 3725 seconds shows "01h 02m 05s";
    after [n] ticks the remaining time is [3725 - n], never below zero,
    and the display follows it; the interval is pending exactly while
    time remains, so that after 3725 ticks the display is "00h 00m 00s",
    the timer is cleared and later ticks change nothing; the popup stays
    shown throughout and is hidden only by the dismissal. *)
Theorem C3_countdown_from_3725 :
  forall (q0 : Quota) (n : nat),
    let q := quota_activate (Js.Int 3725) q0 in
    let qn := quota_ticks n q in
    countdown q = "01h 02m 05s" /\
    showQuotaPopup q = true /\
    retrySeconds qn = Js.Int (Z.max 0 (3725 - Z.of_nat n)) /\
    countdown qn = formatTime (retrySeconds qn) /\
    timer qn = (Z.of_nat n <? 3725) /\
    showQuotaPopup qn = true /\
    retrySeconds (quota_ticks 3725 q) = Js.Int 0 /\
    countdown (quota_ticks 3725 q) = "00h 00m 00s" /\
    timer (quota_ticks 3725 q) = false /\
    quota_ticks (3725 + n) q = quota_ticks 3725 q /\
    showQuotaPopup (quota_dismiss qn) = false.
Proof.
  intros q0 n q qn. subst q qn.
  rewrite quota_activate_counting.
  rewrite !quota_ticks_counting by lia.
  replace (Z.max 0 (3725 - Z.of_nat 3725)) with 0 by lia.
  replace (Z.max 0 (3725 - Z.of_nat (3725 + n))) with 0 by lia.
  repeat split; try reflexivity.
  cbn [timer counting].
  destruct (Z.of_nat n <? 3725) eqn:E.
  - apply Z.ltb_lt in E. apply Z.ltb_lt. lia.
  - apply Z.ltb_ge in E. apply Z.ltb_ge. lia.
Qed.

(** ** Speech playback *)

Example strip_tags_ex : strip_tags "a <b>bold</b> 1 < 2" = "a bold 1 < 2".
Proof. reflexivity. Qed.

Lemma trimStart_spaces (s : string) :
  forallb Js.is_space (list_ascii_of_string (Js.trimStart s)) =
  forallb Js.is_space (list_ascii_of_string s).
Proof.
  induction s as [|c s IH]; [reflexivity|].
  simpl. destruct (Js.is_space c) eqn:E; simpl.
  - exact IH.
  - rewrite E. reflexivity.
Qed.

Lemma trim_nil_iff (s : string) :
  Js.trim s = EmptyString <->
  forallb Js.is_space (list_ascii_of_string s) = true.
Proof.
  unfold Js.trim. rewrite trimEnd_nil_iff. rewrite trimStart_spaces. tauto.
Qed.

Lemma nonempty_false_iff (s : string) :
  Js.nonempty s = false <-> s = EmptyString.
Proof. destruct s; simpl; split; congruence. Qed.

Lemma trim_blank_spaces (s : string) :
  negb (Js.nonempty (Js.trim s)) =
  forallb Js.is_space (list_ascii_of_string s).
Proof.
  destruct (forallb Js.is_space (list_ascii_of_string s)) eqn:E.
  - apply trim_nil_iff in E. rewrite E. reflexivity.
  - destruct (Js.nonempty (Js.trim s)) eqn:E1; [reflexivity|].
    apply nonempty_false_iff, trim_nil_iff in E1. congruence.
Qed.

Lemma blank_only_spaces (text : option string) :
  blank text = only_spaces text.
Proof.
  destruct text as [t|]; [|reflexivity].
  unfold blank, only_spaces. rewrite trim_blank_spaces.
  destruct t; reflexivity || apply orb_false_l.
Qed.

Section Playback.

Variable removeMd : string -> string.

Lemma tracked_init : tracked speech_init.
Proof. reflexivity. Qed.

Lemma tracked_interrupt (sp : Speech) : tracked (interrupt sp).
Proof. reflexivity. Qed.

Lemma tracked_start_speech vs text forceSpeak (sp : Speech) :
  tracked sp -> currentUtterance sp = None ->
  tracked (start_speech removeMd vs text forceSpeak sp).
Proof.
  intros Ht Hc. unfold start_speech.
  destruct (negb (autoSpeak vs) && negb forceSpeak); [exact Ht|].
  destruct (blank text); [exact Ht|].
  unfold tracked in *. rewrite Hc in Ht. simpl. rewrite Ht. reflexivity.
Qed.

Lemma tracked_speakText vs text forceSpeak isToggle (sp : Speech) :
  tracked sp -> tracked (speakText removeMd vs text forceSpeak isToggle sp).
Proof.
  intros Ht. unfold speakText.
  destruct (currentUtterance sp) as [u|] eqn:Hc.
  - destruct isToggle; [apply tracked_interrupt|].
    apply tracked_start_speech; [apply tracked_interrupt|reflexivity].
  - apply tracked_start_speech; assumption.
Qed.

Lemma tracked_at_most_one (sp : Speech) :
  tracked sp -> (length (synth sp) <= 1)%nat.
Proof.
  unfold tracked. intros ->. destruct (currentUtterance sp); simpl; lia.
Qed.


End Playback.




(** C7 (as amended). For a call of [speakText] that is not satisfied by
    cancellation (it is not a toggle call, or nothing was playing), let
    [base] be the state after the interruption block. If auto-speak is off
    and the call is not forced, nothing is spoken. Otherwise, if the text
    is absent, empty or white space only, nothing is spoken. Otherwise
    markup is stripped and the stripped text is queued as the new
    playback, whether or not it is empty. *)
Theorem C7_speak_guards :
  forall (removeMd : string -> string) (vs : VoiceSettings)
         (text : option string) (forceSpeak isToggle : bool) (sp : Speech),
    isToggle = false \/ currentUtterance sp = None ->
    let base := match currentUtterance sp with
                | Some _ => interrupt sp
                | None => sp
                end in
    let sp' := speakText removeMd vs text forceSpeak isToggle sp in
    if negb (autoSpeak vs) && negb forceSpeak then sp' = base
    else if only_spaces text then sp' = base
    else exists t, text = Some t /\
           synth sp' =
             synth base ++
             [mkUtterance (removeMd t) (selectedVoice vs) (speechRate vs)] /\
           currentUtterance sp' =
             Some (mkUtterance (removeMd t) (selectedVoice vs) (speechRate vs)) /\
           isSpeaking sp' = isSpeaking base /\
           speakingNotified sp' = speakingNotified base.
Proof.
  intros removeMd vs text forceSpeak isToggle sp Hcall base sp'.
  assert (Hsp : sp' = start_speech removeMd vs text forceSpeak base).
  { subst sp' base. unfold speakText.
    destruct (currentUtterance sp) eqn:Hc; [|reflexivity].
    destruct Hcall as [-> | H]; [reflexivity|discriminate]. }
  rewrite Hsp. unfold start_speech. rewrite blank_only_spaces.
  destruct (negb (autoSpeak vs) && negb forceSpeak); [reflexivity|].
  destruct (only_spaces text) eqn:E; [reflexivity|].
  destruct text as [t|]; [|discriminate].
  exists t. repeat split; reflexivity.
Qed.

Lemma C7_speak_guards_witness :
  (false = false \/ currentUtterance speech_init = None) /\
  speakText strip_tags (mkVoice None 100 false) (Some "Hello") false false
    speech_init = speech_init /\
  speakText strip_tags sample_voice (Some "  ") true false speech_init
    = speech_init.
Proof.
  split; [left; reflexivity|]. split.
  - exact (C7_speak_guards strip_tags (mkVoice None 100 false) (Some "Hello")
             false false speech_init (or_introl eq_refl)).
  - exact (C7_speak_guards strip_tags sample_voice (Some "  ")
             true false speech_init (or_introl eq_refl)).
Defined.

(** C7 as stated fails: the emptiness test is made on the text as given,
    before the markup is stripped. A forced call with the text "<b></b>",
    whose stripped form is empty, hands an utterance with empty text to the
    synthesiser. *)
Lemma C7_counterexample_markup_only :
  let sp' := speakText strip_tags sample_voice (Some "<b></b>") true false
               speech_init in
  strip_tags "<b></b>" = EmptyString /\
  synth sp' = [mkUtterance EmptyString (Some "Google US English") 100] /\
  currentUtterance sp' =
    Some (mkUtterance EmptyString (Some "Google US English") 100).
Proof. cbv zeta. repeat split; reflexivity. Qed.

(** ** The session catalog *)

Lemma has_messages_iff (s : Session.t) :
  has_messages s = true <-> 1 <= Session.messageCount s.
Proof. unfold has_messages. rewrite Z.ltb_lt. lia. Qed.

Lemma counted_filter (l : list Session.t) :
  counted (List.filter has_messages l).
Proof.
  apply List.Forall_forall. intros s Hs.
  apply List.filter_In in Hs as [_ Hs]. apply has_messages_iff, Hs.
Qed.

Lemma ids_filter_incl (p : Session.t -> bool) (l : list Session.t) (i : string) :
  In i (ids (List.filter p l)) -> In i (ids l).
Proof.
  unfold ids. rewrite !List.in_map_iff.
  intros (s & Hi & Hs). apply List.filter_In in Hs as [Hs _]. eauto.
Qed.

Lemma NoDup_ids_filter (p : Session.t -> bool) (l : list Session.t) :
  List.NoDup (ids l) -> List.NoDup (ids (List.filter p l)).
Proof.
  induction l as [|s l IH]; simpl; intros Hnd; [constructor|].
  apply List.NoDup_cons_iff in Hnd as [Hn Hnd].
  destruct (p s); simpl; [|apply IH, Hnd].
  apply List.NoDup_cons_iff. split; [|apply IH, Hnd].
  intros Hin. apply Hn. eapply ids_filter_incl, Hin.
Qed.

Lemma find_id_none (i : string) (l : list Session.t) :
  List.find (fun s => String.eqb (Session.id s) i) l = None ->
  ~ In i (ids l).
Proof.
  intros Hf Hin. unfold ids in Hin. apply List.in_map_iff in Hin as (s & Hi & Hs).
  pose proof (List.find_none _ _ Hf s Hs) as Hne. simpl in Hne.
  rewrite Hi, String.eqb_refl in Hne. discriminate.
Qed.

(** What [handleNewSession] archives: the session of the render, counted
    with at least one message, and absent from the render's catalog. *)
Lemma archived_entry_spec (render : App) (now : string) (s : Session.t) :
  archived_entry render now = Some s ->
  Session.id s = key_of (sessionId render) /\
  sessionId render = Some (Session.id s) /\
  1 <= Session.messageCount s /\
  ~ In (Session.id s) (ids (sessions render)).
Proof.
  unfold archived_entry.
  destruct (sessionId render) as [sid|] eqn:Hsid; simpl; [|discriminate].
  destruct (Js.nonempty sid); [|discriminate].
  destruct (sessionMessages render !! sid) as [msgs|]; [|discriminate].
  destruct (0 <? Z.of_nat (length msgs)) eqn:Hlen; [|discriminate].
  destruct (List.find _ (sessions render)) eqn:Hf; [discriminate|].
  intros [= <-]. simpl. apply Z.ltb_lt in Hlen.
  repeat split; try lia. apply find_id_none, Hf.
Qed.

Lemma sessions_handleNewSession (render : App) (n now : string) (st : App) :
  sessions (handleNewSession render n now st) =
  match archived_entry render now with
  | Some s => s :: sessions st
  | None => sessions st
  end.
Proof.
  unfold handleNewSession. destruct (archived_entry render now); reflexivity.
Qed.

Lemma stored_handleNewSession (render : App) (n now : string) (st : App) :
  stored_sessions (localStorage (handleNewSession render n now st)) =
  stored_sessions (localStorage st).
Proof.
  unfold handleNewSession. destruct (archived_entry render now); reflexivity.
Qed.

Lemma sessions_handleDeleteSession (a : App) (d n now : string) :
  sessions (handleDeleteSession a d n now) =
  let kept :=
    List.filter (fun s => negb (String.eqb (Session.id s) d)) (sessions a) in
  if bool_decide (sessionId a = Some d)
  then match archived_entry a now with
       | Some s => s :: kept
       | None => kept
       end
  else kept.
Proof.
  unfold handleDeleteSession. cbv zeta.
  destruct (bool_decide (sessionId a = Some d)); [|reflexivity].
  rewrite sessions_handleNewSession. reflexivity.
Qed.

Lemma stored_handleDeleteSession (a : App) (d n now : string) :
  stored_sessions (localStorage (handleDeleteSession a d n now)) =
  stored_sessions (localStorage a).
Proof.
  unfold handleDeleteSession.
  destruct (bool_decide (sessionId a = Some d)); [|reflexivity].
  rewrite stored_handleNewSession. reflexivity.
Qed.

Lemma sessions_persist (a : App) : sessions (persist a) = sessions a.
Proof.
  unfold persist.
  destruct (0 <? Z.of_nat (size (sessionMessages a)));
    destruct (sessions_write _); reflexivity.
Qed.

Lemma stored_persist (a : App) :
  stored_sessions (localStorage (persist a)) =
  match sessions_write (sessions a) with
  | Some valid => valid
  | None => stored_sessions (localStorage a)
  end.
Proof.
  unfold persist.
  destruct (0 <? Z.of_nat (size (sessionMessages a))); simpl;
    destruct (sessions_write (sessions a)); reflexivity.
Qed.

Lemma sessions_write_spec (l valid : list Session.t) :
  sessions_write l = Some valid -> valid = List.filter has_messages l.
Proof.
  unfold sessions_write.
  destruct (0 <? Z.of_nat (length l)); [|discriminate].
  destruct (0 <? Z.of_nat (length (List.filter has_messages l)));
    [|discriminate].
  congruence.
Qed.

Lemma sessions_mount (stor : Storage) :
  sessions (mount stor) = List.filter has_messages (stored_sessions stor).
Proof.
  unfold mount, stored_sessions. simpl.
  destruct (ai_tutor_sessions stor); reflexivity.
Qed.

Lemma sessions_page_load (n : string) (stor : Storage) :
  sessions (page_load n stor) =
  List.filter has_messages (stored_sessions stor).
Proof.
  unfold page_load. cbn [sessions setSessionId]. rewrite sessions_mount.
  reflexivity.
Qed.

Lemma stored_page_load (n : string) (stor : Storage) :
  stored_sessions (localStorage (page_load n stor)) = stored_sessions stor.
Proof. reflexivity. Qed.

Lemma counted_cons (s : Session.t) (l : list Session.t) :
  1 <= Session.messageCount s -> counted l -> counted (s :: l).
Proof. intros Hs Hl. apply List.Forall_cons; assumption. Qed.

Lemma counted_filter_any (p : Session.t -> bool) (l : list Session.t) :
  counted l -> counted (List.filter p l).
Proof.
  unfold counted. rewrite !List.Forall_forall. intros H s Hs.
  apply List.filter_In in Hs as [Hs _]. auto.
Qed.

(** Each operation keeps every catalog entry counted. *)
Lemma counted_step (a : App) (op : AppOp) :
  counted (sessions a) -> counted (sessions (app_step a op)).
Proof.
  intros Hc. unfold app_step. rewrite sessions_persist.
  destruct op as [n now|i|d n now|sid msgs|sid|r]; try exact Hc.
  - rewrite sessions_handleNewSession.
    destruct (archived_entry a now) as [s|] eqn:E; [|exact Hc].
    apply archived_entry_spec in E as (_ & _ & Hs & _).
    apply counted_cons; assumption.
  - rewrite sessions_handleDeleteSession. cbv zeta.
    pose proof (counted_filter_any
                  (fun s => negb (String.eqb (Session.id s) d)) _ Hc) as Hk.
    destruct (bool_decide (sessionId a = Some d)); [|exact Hk].
    destruct (archived_entry a now) as [s|] eqn:E; [|exact Hk].
    apply archived_entry_spec in E as (_ & _ & Hs & _).
    apply counted_cons; assumption.
  - rewrite sessions_page_load. apply counted_filter.
Qed.

Lemma counted_run (ops : list AppOp) (a : App) :
  counted (sessions a) -> counted (sessions (app_run ops a)).
Proof.
  revert a. induction ops as [|op ops IH]; intros a Hc; [exact Hc|].
  apply IH, counted_step, Hc.
Qed.

Lemma counted_mount (stor : Storage) : counted (sessions (mount stor)).
Proof. rewrite sessions_mount. apply counted_filter. Qed.

(** C8. Whatever the browser storage held when the application was
    mounted, after any sequence of session operations (new session, load
    session, delete session, transcript writes, identifier adoption,
    reloads) every entry of the catalog has [messageCount] at least one;
    and every value written under the catalog key consists of such entries
    only. *)
Theorem C8_catalog_entries_have_messages :
  forall (stor : Storage) (ops : list AppOp) (a : App),
    counted (sessions (app_run ops (mount stor))) /\
    counted (default [] (sessions_write (sessions a))) /\
    stored_sessions (localStorage (persist a)) =
      default (stored_sessions (localStorage a)) (sessions_write (sessions a)).
Proof.
  intros stor ops a. split; [apply counted_run, counted_mount|]. split.
  - destruct (sessions_write (sessions a)) as [valid|] eqn:E; simpl;
      [|constructor].
    apply sessions_write_spec in E as ->. apply counted_filter.
  - rewrite stored_persist. destruct (sessions_write (sessions a)); reflexivity.
Qed.

(** Each operation keeps the identifiers of the catalog, and of the stored
    catalog, pairwise distinct. *)
Lemma unique_step (a : App) (op : AppOp) :
  List.NoDup (ids (sessions a)) ->
  List.NoDup (ids (stored_sessions (localStorage a))) ->
  List.NoDup (ids (sessions (app_step a op))) /\
  List.NoDup (ids (stored_sessions (localStorage (app_step a op)))).
Proof.
  intros Hs Hst.
  assert (Hpersist : forall b,
             List.NoDup (ids (sessions b)) ->
             List.NoDup (ids (stored_sessions (localStorage b))) ->
             List.NoDup (ids (sessions (persist b))) /\
             List.NoDup (ids (stored_sessions (localStorage (persist b))))).
  { intros b Hb Hbs. rewrite sessions_persist, stored_persist.
    split; [exact Hb|].
    destruct (sessions_write (sessions b)) as [valid|] eqn:E; [|exact Hbs].
    apply sessions_write_spec in E as ->. apply NoDup_ids_filter, Hb. }
  unfold app_step. apply Hpersist.
  - destruct op as [n now|i|d n now|sid msgs|sid|r]; try exact Hs.
    + rewrite sessions_handleNewSession.
      destruct (archived_entry a now) as [s|] eqn:E; [|exact Hs].
      apply archived_entry_spec in E as (_ & _ & _ & Hn).
      simpl. apply List.NoDup_cons_iff. split; assumption.
    + rewrite sessions_handleDeleteSession. cbv zeta.
      pose proof (NoDup_ids_filter
                    (fun s => negb (String.eqb (Session.id s) d)) _ Hs) as Hk.
      destruct (bool_decide (sessionId a = Some d)); [|exact Hk].
      destruct (archived_entry a now) as [s|] eqn:E; [|exact Hk].
      apply archived_entry_spec in E as (_ & _ & _ & Hn).
      simpl. apply List.NoDup_cons_iff. split; [|exact Hk].
      intros Hin. apply Hn. eapply ids_filter_incl, Hin.
    + rewrite sessions_page_load. apply NoDup_ids_filter, Hst.
  - destruct op as [n now|i|d n now|sid msgs|sid|r]; try exact Hst.
    + rewrite stored_handleNewSession. exact Hst.
    + rewrite stored_handleDeleteSession. exact Hst.
Qed.

Lemma unique_run (ops : list AppOp) (a : App) :
  List.NoDup (ids (sessions a)) ->
  List.NoDup (ids (stored_sessions (localStorage a))) ->
  List.NoDup (ids (sessions (app_run ops a))) /\
  List.NoDup (ids (stored_sessions (localStorage (app_run ops a)))).
Proof.
  revert a. induction ops as [|op ops IH]; intros a Hs Hst; [split; assumption|].
  destruct (unique_step a op Hs Hst) as [H1 H2]. apply IH; assumption.
Qed.

Lemma deleted_id_filtered (d : string) (l : list Session.t) :
  ~ In d (ids (List.filter (fun s => negb (String.eqb (Session.id s) d)) l)).
Proof.
  unfold ids. rewrite List.in_map_iff. intros (s & Hi & Hs).
  apply List.filter_In in Hs as [_ Hs].
  rewrite Hi, String.eqb_refl in Hs. discriminate.
Qed.

(** C10. Starting from a browser storage whose catalog has pairwise
    distinct identifiers (in particular from an empty storage), no
    sequence of session operations and reloads leads to a catalog with
    two entries of the same identifier: new-session creation archives the
    current session only when no entry carries its identifier. Deleting
    an identifier that is listed in the catalog leaves no entry with that
    identifier. *)
Theorem C10_catalog_ids_unique :
  forall (stor : Storage) (ops : list AppOp) (d newSessionId now : string),
    List.NoDup (ids (stored_sessions stor)) ->
    let a := app_run ops (mount stor) in
    List.NoDup (ids (sessions a)) /\
    List.NoDup (ids (sessions (handleNewSession a newSessionId now a))) /\
    (In d (ids (sessions a)) ->
     ~ In d (ids (sessions (handleDeleteSession a d newSessionId now)))).
Proof.
  intros stor ops d n now Hstor a.
  assert (Hinv : List.NoDup (ids (sessions a)) /\
                 List.NoDup (ids (stored_sessions (localStorage a)))).
  { subst a. apply unique_run.
    - rewrite sessions_mount. apply NoDup_ids_filter, Hstor.
    - exact Hstor. }
  destruct Hinv as [Hs Hst]. split; [exact Hs|]. split.
  - rewrite sessions_handleNewSession.
    destruct (archived_entry a now) as [s|] eqn:E; [|exact Hs].
    apply archived_entry_spec in E as (_ & _ & _ & Hn).
    simpl. apply List.NoDup_cons_iff. split; assumption.
  - intros Hd. rewrite sessions_handleDeleteSession. cbv zeta.
    destruct (bool_decide (sessionId a = Some d)) eqn:Hcur;
      [|apply deleted_id_filtered].
    destruct (archived_entry a now) as [s|] eqn:E;
      [|apply deleted_id_filtered].
    apply archived_entry_spec in E as (_ & Hid & _ & Hn).
    apply bool_decide_eq_true in Hcur. rewrite Hcur in Hid.
    injection Hid as Hid. exfalso. apply Hn. rewrite <- Hid. exact Hd.
Qed.

Lemma C10_catalog_ids_unique_witness :
  List.NoDup (ids (stored_sessions storage_empty)) /\
  ids (sessions (app_run sample_ops (mount storage_empty))) = ["s2"; "s1"] /\
  List.NoDup (ids (sessions (app_run sample_ops (mount storage_empty)))) /\
  ~ In "s1"
      (ids (sessions
              (handleDeleteSession (app_run sample_ops (mount storage_empty))
                 "s1" "s4" "2026-01-01T12:00:00.000Z"))).
Proof.
  pose proof (C10_catalog_ids_unique storage_empty sample_ops
                "s1" "s4" "2026-01-01T12:00:00.000Z" (List.NoDup_nil _)) as H.
  cbv zeta in H. destruct H as (H1 & _ & H3).
  split; [constructor|]. split; [vm_compute; reflexivity|].
  split; [exact H1|].
  apply H3. vm_compute. right. left. reflexivity.
Defined.

(** ** One conversational turn *)

Section Turns.

Variable removeMd : string -> string.

Lemma submit_while_loading (c : Chat) (a : App) :
  isLoading c = true -> handleSendMessage_submit c a = (c, a, None).
Proof.
  intros H. unfold handleSendMessage_submit. rewrite H, orb_true_r.
  reflexivity.
Qed.

(** An event other than the settling of a turn leaves [isLoading] set and
    dispatches nothing. *)
Lemma loading_step (s : Chat * App) (e : ChatEvent) :
  is_settle e = false -> isLoading (fst s) = true ->
  exists s', chat_step removeMd s e = (s', []) /\ isLoading (fst s') = true.
Proof.
  destruct s as [c a]. simpl. intros He Hl.
  destruct e; try discriminate; simpl;
    try (eexists; split; [reflexivity|exact Hl]).
  - unfold handleResult. destruct (Js.nonempty finalTranscript);
      eexists; (split; [reflexivity|exact Hl]).
  - unfold toggleListening.
    destruct (negb (recognition c)); [|destruct (isListening c)];
      eexists; (split; [reflexivity|exact Hl]).
  - rewrite (submit_while_loading c a Hl).
    eexists; split; [reflexivity|exact Hl].
Qed.

Lemma loading_run (evs : list ChatEvent) (s : Chat * App) :
  forallb (fun e => negb (is_settle e)) evs = true ->
  isLoading (fst s) = true ->
  exists s', chat_run removeMd evs s = (s', []) /\ isLoading (fst s') = true.
Proof.
  revert s. induction evs as [|e evs IH]; intros s Hevs Hl.
  - exists s. split; [reflexivity|exact Hl].
  - simpl in Hevs. apply andb_prop in Hevs as [He Hevs].
    apply negb_true_iff in He.
    destruct (loading_step s e He Hl) as (s1 & Hs1 & Hl1).
    destruct (IH s1 Hevs Hl1) as (s2 & Hs2 & Hl2).
    exists s2. split; [|exact Hl2].
    cbn [chat_run]. rewrite Hs1, Hs2. reflexivity.
Qed.

Lemma settle_clears_loading (t : Turn) (o : Outcome) (c : Chat) (a : App) :
  isLoading (s_chat (handleSendMessage_settle t o c a)) = false.
Proof.
  unfold handleSendMessage_settle.
  destruct o as [data|[resp|]]; try reflexivity.
  destruct (status resp =? 429); [|reflexivity].
  destruct (retry_seconds (detail resp)); reflexivity.
Qed.

Lemma messages_prop_updated (sid : option string) (msgs : list Message)
    (a : App) :
  sessionId a = sid ->
  messages_prop (updateSessionMessages sid msgs a) = msgs.
Proof.
  intros <-. unfold messages_prop, updateSessionMessages. simpl.
  rewrite lookup_insert_eq. reflexivity.
Qed.

End Turns.

(** C1. A submit is ignored, with no change of state and no request, when
    the input is empty after trimming or a send is in flight. Otherwise it
    dispatches exactly one turn: the user's message (the input as typed)
    is appended to the transcript of the current session, the input is
    cleared and [isLoading] is set; as long as the turn has not settled,
    whatever else happens to the component (further submits included)
    leaves [isLoading] set and dispatches nothing; and the settling of the
    turn, with success or with failure, clears [isLoading]. *)
Theorem C1_submit_guard_single_dispatch :
  forall (removeMd : string -> string) (c : Chat) (a : App)
         (evs : list ChatEvent),
    forallb (fun e => negb (is_settle e)) evs = true ->
    if bool_decide (Js.trim (inputValue c) = EmptyString) || isLoading c
    then handleSendMessage_submit c a = (c, a, None)
    else
      exists (c' : Chat) (a' : App) (t : Turn),
        handleSendMessage_submit c a = (c', a', Some t) /\
        messages_prop a' = messages_prop a ++ [mkMessage user (inputValue c)] /\
        sessionMessages a' =
          <[key_of (sessionId a) :=
              messages_prop a ++ [mkMessage user (inputValue c)]]>
            (sessionMessages a) /\
        sessionId a' = sessionId a /\
        inputValue c' = EmptyString /\
        isLoading c' = true /\
        t_sessionId t = sessionId a /\
        question (t_request t) = inputValue c /\
        (exists s', chat_run removeMd evs (c', a') = (s', []) /\
                    isLoading (fst s') = true) /\
        (exists s', chat_run removeMd (Submit :: evs) (c, a) = (s', [t])) /\
        (forall (o : Outcome) (c2 : Chat) (a2 : App),
            isLoading (s_chat (handleSendMessage_settle t o c2 a2)) = false).
Proof.
  intros removeMd c a evs Hevs.
  unfold handleSendMessage_submit.
  destruct (bool_decide (Js.trim (inputValue c) = EmptyString)) eqn:Hb.
  - apply bool_decide_eq_true in Hb. rewrite Hb. reflexivity.
  - apply bool_decide_eq_false in Hb.
    destruct (Js.nonempty (Js.trim (inputValue c))) eqn:Hn;
      [|apply nonempty_false_iff in Hn; contradiction].
    simpl. destruct (isLoading c) eqn:Hl; [reflexivity|].
    eexists _, _, _. split; [reflexivity|].
    split; [apply messages_prop_updated; reflexivity|].
    do 6 (split; [reflexivity|]).
    match goal with
    | |- (exists s', chat_run _ _ (?c1, ?a1) = _ /\ _) /\ _ =>
        destruct (loading_run removeMd evs (c1, a1) Hevs eq_refl)
          as (s' & Hrun & Hl')
    end.
    split; [exists s'; split; assumption|].
    split; [|intros; apply settle_clears_loading].
    exists s'. cbn [chat_run chat_step].
    unfold handleSendMessage_submit. rewrite Hn, Hl. simpl.
    rewrite Hrun. reflexivity.
Qed.

Lemma C1_submit_guard_single_dispatch_witness :
  forallb (fun e => negb (is_settle e))
    [Change "Again?"; Submit; Tick; Submit] = true /\
  (exists s' t,
      chat_run strip_tags [Submit; Change "Again?"; Submit; Tick; Submit]
        (sample_chat, sample_app) = (s', [t]) /\
      question (t_request t) = "What is osmosis?") /\
  handleSendMessage_submit (setInputValue "   " sample_chat) sample_app
    = (setInputValue "   " sample_chat, sample_app, None).
Proof.
  split; [reflexivity|]. split.
  - pose proof (C1_submit_guard_single_dispatch strip_tags sample_chat
                  sample_app [Change "Again?"; Submit; Tick; Submit] eq_refl)
      as H.
    change (bool_decide (Js.trim (inputValue sample_chat) = EmptyString)
            || isLoading sample_chat) with false in H.
    destruct H as (c' & a' & t & _ & _ & _ & _ & _ & _ & _ & Hq & _ & [s' Hs] & _).
    exists s', t. split; [exact Hs|exact Hq].
  - exact (C1_submit_guard_single_dispatch strip_tags
             (setInputValue "   " sample_chat) sample_app [] eq_refl).
Defined.

(** The continuation of a turn writes one transcript only: the one of the
    session captured when the turn was dispatched. *)
Lemma settle_other_sessions (t : Turn) (o : Outcome) (c : Chat) (a : App)
    (k : string) :
  k <> key_of (t_sessionId t) ->
  sessionMessages (s_app (handleSendMessage_settle t o c a)) !! k =
  sessionMessages a !! k.
Proof.
  intros Hk. unfold handleSendMessage_settle.
  destruct o as [data|[resp|]].
  - destruct (negb (truthy_id (t_sessionId t)) && truthy_id (r_session_id data));
      unfold notify_emotion; destruct (emotion data) as [e|];
      try destruct (Js.nonempty e); simpl;
      rewrite lookup_insert_ne by congruence; reflexivity.
  - destruct (status resp =? 429).
    + destruct (retry_seconds (detail resp)); simpl;
        [rewrite lookup_insert_ne by congruence|]; reflexivity.
    + simpl. rewrite lookup_insert_ne by congruence. reflexivity.
  - simpl. rewrite lookup_insert_ne by congruence. reflexivity.
Qed.

Lemma settle_resolved_transcript (t : Turn) (data : ResponseData)
    (c : Chat) (a : App) :
  sessionMessages (s_app (handleSendMessage_settle t (Resolved data) c a))
    !! key_of (t_sessionId t) =
  Some (t_newMessages t ++ [mkMessage assistant (answer data)]).
Proof.
  unfold handleSendMessage_settle.
  destruct (negb (truthy_id (t_sessionId t)) && truthy_id (r_session_id data));
    unfold notify_emotion; destruct (emotion data) as [e|];
    try destruct (Js.nonempty e); simpl;
    rewrite lookup_insert_eq; reflexivity.
Qed.

Lemma submit_turn (c : Chat) (a : App) (c' : Chat) (a' : App) (t : Turn) :
  handleSendMessage_submit c a = (c', a', Some t) ->
  t_sessionId t = sessionId a /\
  t_newMessages t = messages_prop a ++ [mkMessage user (inputValue c)].
Proof.
  unfold handleSendMessage_submit.
  destruct (negb (Js.nonempty (Js.trim (inputValue c))) || isLoading c);
    [discriminate|].
  intros [= _ _ <-]. split; reflexivity.
Qed.

(** C4 (as amended). A response that resolves after the user has switched
    to another session is not discarded. Whatever the application state
    [a] is when the response of a turn resolves (in particular, whatever
    session is then current), the transcript of the session that was
    current when the turn was dispatched becomes the messages shown at
    dispatch, the user's message and the assistant's message; the
    transcript of every other session is left as it is. *)
Theorem C4_late_response_written_to_dispatching_session :
  forall (c0 : Chat) (a0 : App) (c1 : Chat) (a1 : App) (t : Turn)
         (data : ResponseData) (o : Outcome) (c : Chat) (a : App)
         (k : string),
    handleSendMessage_submit c0 a0 = (c1, a1, Some t) ->
    k <> key_of (sessionId a0) ->
    sessionMessages (s_app (handleSendMessage_settle t (Resolved data) c a))
      !! key_of (sessionId a0) =
      Some (messages_prop a0 ++
            [mkMessage user (inputValue c0);
             mkMessage assistant (answer data)]) /\
    sessionMessages (s_app (handleSendMessage_settle t o c a)) !! k =
      sessionMessages a !! k.
Proof.
  intros c0 a0 c1 a1 t data o c a k Hsub Hk.
  apply submit_turn in Hsub as [Hsid Hmsgs]. split.
  - rewrite <- Hsid, settle_resolved_transcript, Hmsgs, <- app_assoc.
    reflexivity.
  - apply settle_other_sessions. rewrite Hsid. exact Hk.
Qed.

Lemma C4_late_response_witness :
  handleSendMessage_submit sample_chat sample_app =
    (sample_sending_chat, sample_sending_app, Some sample_turn) /\
  "s2" <> key_of (sessionId sample_app) /\
  let a2 := handleLoadSession "s2" sample_sending_app in
  let a3 := s_app (handleSendMessage_settle sample_turn
                     (Resolved sample_response) (chat_init true None) a2) in
  sessionId a2 = Some "s2" /\
  sessionMessages a3 !! "s1" =
    Some [mkMessage user "What is osmosis?";
          mkMessage assistant "Water moves across a membrane."] /\
  sessionMessages a3 !! "s2" = sessionMessages a2 !! "s2".
Proof.
  assert (Hne : "s2" <> key_of (sessionId sample_app)) by discriminate.
  split; [reflexivity|]. split; [exact Hne|]. cbv zeta.
  destruct (C4_late_response_written_to_dispatching_session
              sample_chat sample_app sample_sending_chat sample_sending_app
              sample_turn sample_response (Resolved sample_response)
              (chat_init true None)
              (handleLoadSession "s2" sample_sending_app) "s2"
              eq_refl Hne) as [H1 H2].
  split; [reflexivity|]. split; [exact H1|exact H2].
Defined.

(** C4 as stated fails: a question is asked in session "s1", the user
    loads session "s2" while the request is in flight, and the response
    then resolves. The response is not discarded: the session store
    changes, the transcript of "s1" gaining the assistant's message. *)
Lemma C4_counterexample_not_discarded :
  let a2 := handleLoadSession "s2" sample_sending_app in
  let a3 := s_app (handleSendMessage_settle sample_turn
                     (Resolved sample_response) (chat_init true None) a2) in
  handleSendMessage_submit sample_chat sample_app =
    (sample_sending_chat, sample_sending_app, Some sample_turn) /\
  sessionId sample_app = Some "s1" /\
  sessionId a2 = Some "s2" /\
  sessionMessages a2 !! "s1" = Some [mkMessage user "What is osmosis?"] /\
  sessionMessages a3 !! "s1" =
    Some [mkMessage user "What is osmosis?";
          mkMessage assistant "Water moves across a membrane."] /\
  sessionMessages a3 <> sessionMessages a2.
Proof.
  cbv zeta. do 5 (split; [reflexivity|]).
  intros Heq.
  apply (f_equal (fun m => m !! "s1")) in Heq.
  vm_compute in Heq. discriminate.
Qed.

(** C5 (as amended). On a successful response the message appended to the
    transcript is [{ role: 'assistant', content: answer }] and carries no
    emotion property. The emotion of the response goes to the avatar
    instead: when it is present and non-empty it becomes the current
    emotion, otherwise the current emotion is left as it was. *)
Theorem C5_assistant_message_without_emotion :
  forall (t : Turn) (data : ResponseData) (c : Chat) (a : App),
    let r := handleSendMessage_settle t (Resolved data) c a in
    exists m : Message,
      sessionMessages (s_app r) !! key_of (t_sessionId t) =
        Some (t_newMessages t ++ [m]) /\
      role m = assistant /\
      content m = answer data /\
      prop m "emotion" = None /\
      currentEmotion (s_app r) =
        match emotion data with
        | Some e => if Js.nonempty e then e else currentEmotion a
        | None => currentEmotion a
        end.
Proof.
  intros t data c a r. exists (mkMessage assistant (answer data)).
  split; [apply settle_resolved_transcript|].
  do 3 (split; [reflexivity|]).
  subst r. unfold handleSendMessage_settle.
  destruct (negb (truthy_id (t_sessionId t)) && truthy_id (r_session_id data));
    unfold notify_emotion; destruct (emotion data) as [e|];
    try destruct (Js.nonempty e); reflexivity.
Qed.

(** C5 as stated fails: the response carries the emotion "explaining",
    yet the assistant message appended for it has no emotion property; and
    for a response without emotion, received while the avatar shows
    "happy", nothing is set to "neutral". *)
Lemma C5_counterexample_no_emotion_tag :
  let r := handleSendMessage_settle sample_turn (Resolved sample_response)
             sample_sending_chat sample_sending_app in
  let r' := handleSendMessage_settle sample_turn
              (Resolved (mkResponse "Yes." None None))
              sample_sending_chat
              (setCurrentEmotion "happy" sample_sending_app) in
  emotion sample_response = Some "explaining" /\
  (exists m, last (messages_prop (s_app r)) = Some m /\
             role m = assistant /\
             prop m "emotion" = None /\
             prop m "emotion" <> Some "explaining") /\
  (exists m, last (messages_prop (s_app r')) = Some m /\
             role m = assistant /\
             prop m "emotion" <> Some "neutral") /\
  currentEmotion (s_app r') = "happy".
Proof.
  cbv zeta. split; [reflexivity|]. split; [|split].
  - exists (mkMessage assistant "Water moves across a membrane.").
    repeat split; try reflexivity. discriminate.
  - exists (mkMessage assistant "Yes.").
    repeat split; try reflexivity. discriminate.
  - reflexivity.
Qed.

(** C6. The seconds a 429 answer activates the countdown with. A [detail]
    that is not an object (absent, a boolean, a number, a string) gets the
    default of 3600 seconds, shown as "01h 00m 00s" with the interval
    running. A [detail] that is an object is read for
    [retry_after_seconds] as it is: when the property is missing (also for
    an array) the countdown is activated with [undefined], shown as
    "00h 00m 00s" with no interval; when [detail] is [null] the read throws
    and the popup is not shown at all. *)
Theorem C6_retry_delay_by_detail_shape :
  forall (t : Turn) (c : Chat) (a : App)
         (msg : option string) (b : bool) (z : Z) (s : string),
    let after d :=
      handleSendMessage_settle t
        (Rejected (Some (mkErrorResponse 429 d))) c a in
    let q d := quota (s_chat (after d)) in
    retrySeconds (q DUndefined) = Js.Int 3600 /\
    retrySeconds (q (DBoolean b)) = Js.Int 3600 /\
    retrySeconds (q (DNumber z)) = Js.Int 3600 /\
    retrySeconds (q (DString s)) = Js.Int 3600 /\
    q (DString s) = mkQuota true (Js.Int 3600) "01h 00m 00s" true /\
    q (DObject msg (Js.Int 120)) =
      mkQuota true (Js.Int 120) "00h 02m 00s" true /\
    q (DObject msg Js.Undefined) =
      mkQuota true Js.Undefined "00h 00m 00s" false /\
    q DArray = mkQuota true Js.Undefined "00h 00m 00s" false /\
    s_threw (after DNull) = true /\
    q DNull = quota c.
Proof. intros. cbv zeta. repeat split; reflexivity. Qed.

(** * Further properties of the session store *)

Lemma transcripts_handleNewSession (render : App) (n now : string) (st : App) :
  sessionMessages (handleNewSession render n now st) = sessionMessages st.
Proof.
  unfold handleNewSession. destruct (archived_entry render now); reflexivity.
Qed.

Lemma sessionId_handleNewSession (render : App) (n now : string) (st : App) :
  sessionId (handleNewSession render n now st) = Some n /\
  ai_tutor_session (localStorage (handleNewSession render n now st)) = Some n.
Proof.
  unfold handleNewSession. destruct (archived_entry render now);
    split; reflexivity.
Qed.

(** X1. Deleting the current session discards its transcript and makes
    the generated identifier the current and the stored one; the new
    current session shows an empty transcript when the generated
    identifier has none, and the transcripts of the other sessions are
    left as they are. *)
Theorem delete_current_session_opens_empty_one :
  forall (a : App) (d newSessionId now : string),
    sessionId a = Some d ->
    sessionMessages a !! newSessionId = None ->
    let a' := handleDeleteSession a d newSessionId now in
    sessionMessages a' !! d = None /\
    sessionId a' = Some newSessionId /\
    ai_tutor_session (localStorage a') = Some newSessionId /\
    messages_prop a' = [] /\
    (forall k, k <> d -> sessionMessages a' !! k = sessionMessages a !! k).
Proof.
  intros a d n now Hcur Hfresh a'. subst a'. unfold handleDeleteSession.
  rewrite bool_decide_eq_true_2 by exact Hcur.
  destruct (sessionId_handleNewSession a n now
              (setSessionMessages (fun prev => delete d prev)
                 (setSessions
                    (fun prev =>
                       List.filter
                         (fun s => negb (String.eqb (Session.id s) d)) prev)
                    a))) as [Hid Hst].
  unfold messages_prop. rewrite Hid, Hst, transcripts_handleNewSession.
  cbn [sessionMessages setSessionMessages setSessions key_of default].
  rewrite lookup_delete_eq.
  split; [reflexivity|]. split; [reflexivity|]. split; [reflexivity|].
  split.
  - destruct (decide (d = n)) as [->|Hne].
    + rewrite lookup_delete_eq. reflexivity.
    + rewrite (lookup_delete_ne _ d n Hne), Hfresh. reflexivity.
  - intros k Hk. apply lookup_delete_ne. intros ->. apply Hk. reflexivity.
Qed.

Lemma delete_current_session_witness :
  let a := app_run sample_ops (mount storage_empty) in
  let a1 := handleLoadSession "s2" a in
  let a' := handleDeleteSession a1 "s2" "s4" "2026-01-01T12:00:00.000Z" in
  sessionId a1 = Some "s2" /\
  sessionMessages a1 !! "s4" = None /\
  sessionMessages a1 !! "s2" = Some [mkMessage user "And diffusion?"] /\
  sessionMessages a' !! "s2" = None /\
  sessionId a' = Some "s4" /\
  messages_prop a' = [] /\
  sessionMessages a' !! "s1" = sessionMessages a1 !! "s1".
Proof.
  cbv zeta.
  assert (H1 : sessionId (handleLoadSession "s2"
                 (app_run sample_ops (mount storage_empty))) = Some "s2")
    by reflexivity.
  assert (H2 : sessionMessages (handleLoadSession "s2"
                 (app_run sample_ops (mount storage_empty))) !! "s4" = None)
    by (vm_compute; reflexivity).
  destruct (delete_current_session_opens_empty_one _ "s2" "s4"
              "2026-01-01T12:00:00.000Z" H1 H2) as (Ha & Hb & _ & Hd & He).
  split; [exact H1|]. split; [exact H2|].
  split; [vm_compute; reflexivity|].
  split; [exact Ha|]. split; [exact Hb|]. split; [exact Hd|].
  apply He. discriminate.
Defined.

(** X2. Loading a session archives nothing and touches no transcript: the
    catalog and the transcripts stay as they are, the loaded identifier
    becomes the current and the stored one, and loading another session
    and then the original one again shows the original transcript. *)
Theorem load_session_round_trip :
  forall (a : App) (s other : string),
    sessionId a = Some s ->
    let a1 := handleLoadSession other a in
    let a2 := handleLoadSession s a1 in
    sessions a1 = sessions a /\
    sessionMessages a1 = sessionMessages a /\
    sessionId a1 = Some other /\
    ai_tutor_session (localStorage a1) = Some other /\
    messages_prop a1 = default [] (sessionMessages a !! other) /\
    sessionId a2 = sessionId a /\
    messages_prop a2 = messages_prop a /\
    sessions a2 = sessions a.
Proof.
  intros a s other Hs a1 a2. subst a1 a2.
  unfold messages_prop. rewrite Hs. repeat split; reflexivity.
Qed.

Lemma load_session_round_trip_witness :
  let a := app_run sample_ops (mount storage_empty) in
  sessionId a = Some "s3" /\
  ids (sessions (handleLoadSession "s1" a)) = ["s2"; "s1"] /\
  messages_prop (handleLoadSession "s1" a) =
    [mkMessage user "What is osmosis?"] /\
  messages_prop (handleLoadSession "s3" (handleLoadSession "s1" a)) =
    messages_prop a.
Proof.
  cbv zeta.
  assert (H0 : sessionId (app_run sample_ops (mount storage_empty)) = Some "s3")
    by reflexivity.
  destruct (load_session_round_trip _ "s3" "s1" H0)
    as (H1 & _ & _ & _ & H5 & _ & H7 & _).
  split; [exact H0|]. split; [rewrite H1; vm_compute; reflexivity|].
  split; [rewrite H5; vm_compute; reflexivity|]. exact H7.
Defined.

(** X3. Opening a new session never loses a conversation from the
    history: when the current session has a non-empty identifier and at
    least one message, the catalog afterwards lists it; the catalog grows
    by at most one entry, at its head, and no transcript is touched. *)
Theorem new_session_keeps_conversation_listed :
  forall (a : App) (s newSessionId now : string) (msgs : list Message),
    sessionId a = Some s ->
    s <> EmptyString ->
    sessionMessages a !! s = Some msgs ->
    msgs <> [] ->
    let a' := handleNewSession a newSessionId now a in
    In s (ids (sessions a')) /\
    (sessions a' = sessions a \/
     exists e, sessions a' = e :: sessions a /\
               Session.id e = s /\
               Session.messageCount e = Z.of_nat (length msgs) /\
               Session.timestamp e = now) /\
    sessionMessages a' = sessionMessages a /\
    sessionId a' = Some newSessionId.
Proof.
  intros a s n now msgs Hs Hne Hmsgs Hnil a'. subst a'.
  rewrite sessions_handleNewSession, transcripts_handleNewSession.
  destruct (sessionId_handleNewSession a n now a) as [-> _].
  unfold archived_entry. rewrite Hs.
  change (key_of (Some s)) with s. cbn [truthy_id].
  destruct (Js.nonempty s) eqn:Hn;
    [|apply nonempty_false_iff in Hn; contradiction].
  rewrite Hmsgs.
  destruct msgs as [|m msgs]; [contradiction|].
  replace (0 <? Z.of_nat (length (m :: msgs))) with true
    by (symmetry; apply Z.ltb_lt; simpl; lia).
  destruct (List.find _ (sessions a)) as [e|] eqn:Hf.
  - apply List.find_some in Hf as [Hin Heq]. apply String.eqb_eq in Heq.
    split; [|split; [left; reflexivity|split; reflexivity]].
    unfold ids. apply List.in_map_iff. exists e. split; assumption.
  - split; [left; reflexivity|].
    split; [|split; reflexivity].
    right. eexists. split; [reflexivity|]. repeat split.
Qed.

Lemma new_session_keeps_conversation_listed_witness :
  let a := app_run [AdoptSession "s1";
                    AppendMessage (Some "s1") [mkMessage user "What is osmosis?"]]
                   (mount storage_empty) in
  sessionId a = Some "s1" /\
  sessions a = [] /\
  In "s1" (ids (sessions (handleNewSession a "s2" "2026-01-01T10:00:00.000Z" a))).
Proof.
  cbv zeta. split; [reflexivity|]. split; [reflexivity|].
  refine (proj1 (new_session_keeps_conversation_listed
                   (app_run [AdoptSession "s1";
                             AppendMessage (Some "s1")
                               [mkMessage user "What is osmosis?"]]
                            (mount storage_empty))
                   "s1" "s2" "2026-01-01T10:00:00.000Z"
                   [mkMessage user "What is osmosis?"] _ _ _ _)).
  - reflexivity.
  - discriminate.
  - vm_compute. reflexivity.
  - discriminate.
Defined.

Lemma filter_counted (l : list Session.t) :
  counted l -> List.filter has_messages l = l.
Proof.
  induction l as [|s l IH]; intros Hc; [reflexivity|].
  apply List.Forall_cons_iff in Hc as [Hs Hl]. simpl.
  rewrite (proj2 (has_messages_iff s) Hs), (IH Hl). reflexivity.
Qed.

Lemma sessionId_persist (a : App) :
  sessionId (persist a) = sessionId a /\
  ai_tutor_session (localStorage (persist a)) =
    ai_tutor_session (localStorage a) /\
  sessionMessages (persist a) = sessionMessages a.
Proof.
  unfold persist.
  destruct (0 <? Z.of_nat (size (sessionMessages a)));
    destruct (sessions_write _); repeat split; reflexivity.
Qed.

Lemma id_in_sync_step (a : App) (op : AppOp) :
  id_in_sync a -> id_in_sync (app_step a op).
Proof.
  intros Ha. unfold app_step, id_in_sync.
  match goal with |- context [persist ?b] =>
    destruct (sessionId_persist b) as (-> & -> & _) end.
  destruct op as [n now|i|d n now|sid msgs|sid|r];
    [destruct (sessionId_handleNewSession a n now a) as [-> ->];
     exists n; split; reflexivity
    |exists i; split; reflexivity| |exact Ha
    |exists sid; split; reflexivity|exists r; split; reflexivity].
  unfold handleDeleteSession.
  destruct (bool_decide (sessionId a = Some d)); [|exact Ha].
  match goal with |- context [handleNewSession a n now ?st] =>
    destruct (sessionId_handleNewSession a n now st) as [-> ->] end.
  exists n. split; reflexivity.
Qed.

(** X4. After a page load and any session operations a session is
    current and its identifier is the stored one. A reload of the page
    does not come back to it: the chat component stores the identifier
    it generates before the storage is read, so the reloaded page is in
    the generated session, with that identifier stored, while the
    catalog and the transcripts are those read back from the storage. *)
Theorem reload_opens_generated_session :
  forall (stor : Storage) (firstId : string) (ops : list AppOp)
         (reloadId : string),
    let a := app_run ops (app_step (mount stor) (Reload firstId)) in
    let a' := app_step a (Reload reloadId) in
    id_in_sync a /\
    sessionId a' = Some reloadId /\
    ai_tutor_session (localStorage a') = Some reloadId /\
    sessions a' = List.filter has_messages (stored_sessions (localStorage a)) /\
    sessionMessages a' = default ∅ (ai_tutor_messages (localStorage a)).
Proof.
  intros stor n ops r a a'. split.
  - subst a.
    assert (H0 : id_in_sync (app_step (mount stor) (Reload n))).
    { unfold app_step, id_in_sync.
      match goal with |- context [persist ?b] =>
        destruct (sessionId_persist b) as (-> & -> & _) end.
      exists n. split; reflexivity. }
    revert H0. generalize (app_step (mount stor) (Reload n)).
    induction ops as [|op ops IH]; intros b Hb; [exact Hb|].
    apply IH, id_in_sync_step, Hb.
  - subst a'.
    change (app_step a (Reload r))
      with (persist (page_load r (localStorage a))).
    destruct (sessionId_persist (page_load r (localStorage a)))
      as (H1 & H2 & H3).
    rewrite H1, H2, H3, sessions_persist, sessions_page_load.
    repeat split.
Qed.

(** X5. What the persistence effects write is what a mount reads back: a
    non-empty transcript map is restored as it was, and so is a non-empty
    catalog whose entries all count at least one message. *)
Theorem persisted_state_is_restored :
  forall (a : App),
    sessionMessages a <> ∅ ->
    sessions a <> [] ->
    counted (sessions a) ->
    sessionMessages (mount (localStorage (persist a))) = sessionMessages a /\
    sessions (mount (localStorage (persist a))) = sessions a.
Proof.
  intros a Hm Hs Hc.
  assert (Hsize : (0 <? Z.of_nat (size (sessionMessages a))) = true).
  { apply Z.ltb_lt.
    destruct (size (sessionMessages a)) eqn:E; [|lia].
    apply map_size_empty_inv in E. contradiction. }
  assert (Hw : sessions_write (sessions a) = Some (sessions a)).
  { unfold sessions_write. rewrite (filter_counted _ Hc).
    destruct (sessions a); [contradiction|]. reflexivity. }
  split.
  - unfold persist. rewrite Hsize. cbn [sessions setStorage].
    rewrite Hw. reflexivity.
  - rewrite sessions_mount, stored_persist, Hw. apply filter_counted, Hc.
Qed.

Lemma persisted_state_is_restored_witness :
  let a := app_run sample_ops (mount storage_empty) in
  sessionMessages a <> ∅ /\ sessions a <> [] /\ counted (sessions a) /\
  sessionMessages (mount (localStorage (persist a))) = sessionMessages a /\
  ids (sessions (mount (localStorage (persist a)))) = ["s2"; "s1"].
Proof.
  cbv zeta.
  assert (H1 : sessionMessages (app_run sample_ops (mount storage_empty)) <> ∅).
  { intros H. apply (f_equal (fun m => m !! "s1")) in H.
    vm_compute in H. discriminate. }
  assert (H2 : sessions (app_run sample_ops (mount storage_empty)) <> [])
    by (vm_compute; discriminate).
  assert (H3 : counted (sessions (app_run sample_ops (mount storage_empty))))
    by (apply counted_run, counted_mount).
  destruct (persisted_state_is_restored _ H1 H2 H3) as [Ha Hb].
  split; [exact H1|]. split; [exact H2|]. split; [exact H3|].
  split; [exact Ha|]. rewrite Hb. vm_compute. reflexivity.
Defined.




(** * Further properties of the quota countdown *)

Lemma quota_ticks_idle (n : nat) (q : Quota) :
  timer q = false -> quota_ticks n q = q.
Proof.
  intros Ht. induction n as [|n IH]; [reflexivity|].
  cbn [quota_ticks]. unfold quota_tick. rewrite Ht. exact IH.
Qed.

(** X7. For a retry delay of any integer number of seconds [z]: after [n]
    ticks the remaining time is [z - n] but not below zero when [z] is
    positive, the interval is pending exactly while [n < z], the popup
    stays shown and the display is the formatted remaining time. A delay
    that is zero or negative never starts the interval and stays as it
    is. *)
Theorem countdown_after_ticks :
  forall (z : Z) (n : nat) (q0 : Quota),
    let qn := quota_ticks n (quota_activate (Js.Int z) q0) in
    retrySeconds qn =
      Js.Int (if 0 <? z then Z.max 0 (z - Z.of_nat n) else z) /\
    timer qn = (Z.of_nat n <? z) /\
    showQuotaPopup qn = true /\
    countdown qn = formatTime (retrySeconds qn).
Proof.
  intros z n q0 qn. subst qn. rewrite quota_activate_counting.
  destruct (0 <? z) eqn:Hz.
  - apply Z.ltb_lt in Hz. rewrite quota_ticks_counting by lia.
    cbn [retrySeconds timer showQuotaPopup countdown counting].
    repeat split; try reflexivity.
    destruct (Z.of_nat n <? z) eqn:E.
    + apply Z.ltb_lt in E. apply Z.ltb_lt. lia.
    + apply Z.ltb_ge in E. apply Z.ltb_ge. lia.
  - rewrite quota_ticks_idle by (cbn [timer counting]; exact Hz).
    cbn [retrySeconds timer showQuotaPopup countdown counting].
    rewrite Hz. apply Z.ltb_ge in Hz.
    repeat split; try reflexivity.
    symmetry. apply Z.ltb_ge. lia.
Qed.

Lemma quota_effects_sync (q : Quota) :
  countdown (quota_effects q) = formatTime (retrySeconds (quota_effects q)) /\
  timer (quota_effects q) =
    showQuotaPopup (quota_effects q) && Js.gt (retrySeconds (quota_effects q)) 0.
Proof. split; reflexivity. Qed.

(** X8. Whatever sequence of activations (with any value, [undefined]
    included), interval firings and popup closings the quota cells go
    through, the countdown text is the formatted [retrySeconds] and an
    interval is pending exactly when the popup is shown and
    [retrySeconds] is positive. *)
Theorem quota_display_follows_state :
  forall (evs : list QuotaEvent),
    let q := quota_run evs quota_init in
    countdown q = formatTime (retrySeconds q) /\
    timer q = showQuotaPopup q && Js.gt (retrySeconds q) 0.
Proof.
  intros evs q. subst q.
  assert (H0 : countdown quota_init = formatTime (retrySeconds quota_init) /\
               timer quota_init =
                 showQuotaPopup quota_init && Js.gt (retrySeconds quota_init) 0)
    by (split; reflexivity).
  revert H0. generalize quota_init.
  induction evs as [|e evs IH]; intros q Hq; [exact Hq|].
  apply IH. destruct e; cbn [quota_step].
  - apply quota_effects_sync.
  - unfold quota_tick. destruct (timer q) eqn:Et;
      [apply quota_effects_sync|rewrite Et; exact Hq].
  - apply quota_effects_sync.
Qed.

(** X9. Closing the popup stops the countdown: the remaining seconds are
    kept, no interval is pending, and no later firing changes anything
    until the next activation. *)
Theorem closed_popup_freezes_countdown :
  forall (q : Quota) (n : nat),
    retrySeconds (quota_dismiss q) = retrySeconds q /\
    showQuotaPopup (quota_dismiss q) = false /\
    timer (quota_dismiss q) = false /\
    quota_ticks n (quota_dismiss q) = quota_dismiss q.
Proof.
  intros q n. repeat split. apply quota_ticks_idle. reflexivity.
Qed.

Lemma zero_padded_zero (x : Z) :
  0 <= x -> zero_padded x = "00" -> x = 0.
Proof.
  intros Hx H. destruct x as [|p|p]; [reflexivity| |lia].
  exfalso. unfold zero_padded, Js.toString in H. cbn [Z.to_int] in H.
  cbn [NilEmpty.string_of_int] in H.
  assert (Hd : NilEmpty.string_of_uint (Pos.to_uint p) =
               NilEmpty.string_of_uint (Decimal.D0 Decimal.Nil) \/
               NilEmpty.string_of_uint (Pos.to_uint p) =
               NilEmpty.string_of_uint (Decimal.D0 (Decimal.D0 Decimal.Nil))).
  { destruct (Z.pos p <? 10); [left; injection H as H; exact H|right; exact H]. }
  pose proof (DecimalPos.Unsigned.of_to p) as Hp.
  destruct Hd as [Hd|Hd];
    apply (f_equal NilEmpty.uint_of_string) in Hd;
    rewrite !NilEmpty.usu in Hd; injection Hd as Hd;
    rewrite Hd in Hp; discriminate.
Qed.

Lemma append_cons (c : ascii) (s t : string) :
  String c s +:+ t = String c (s +:+ t).
Proof. reflexivity. Qed.

Lemma append_nil (t : string) : EmptyString +:+ t = t.
Proof. reflexivity. Qed.

Lemma append_length (s t : string) :
  String.length (s +:+ t) = (String.length s + String.length t)%nat.
Proof.
  induction s as [|c s IH]; [reflexivity|].
  rewrite append_cons. cbn [String.length]. rewrite IH. reflexivity.
Qed.

Lemma zero_padded_length (x : Z) :
  0 <= x -> (2 <= String.length (zero_padded x))%nat.
Proof.
  intros Hx. unfold zero_padded. destruct (x <? 10) eqn:E.
  - destruct x as [|p|p]; [simpl; lia| |lia].
    unfold Js.toString. cbn [Z.to_int NilEmpty.string_of_int].
    pose proof (DecimalPos.Unsigned.to_uint_nonnil p) as Hnn.
    destruct (Pos.to_uint p); [contradiction|simpl; lia..].
  - apply toString_long. apply Z.ltb_ge in E. exact E.
Qed.

(** X10. The countdown reads "00h 00m 00s" only when no time is left:
    for an integer number of seconds, the formatted text is the zero text
    exactly when the number is zero or negative. *)
Theorem formatTime_zero_iff :
  forall z : Z, formatTime (Js.Int z) = "00h 00m 00s" <-> z <= 0.
Proof.
  intros z. split; [|apply formatTime_nonpositive].
  intros H. destruct (Z_le_gt_dec z 0) as [Hle|Hgt]; [exact Hle|].
  exfalso. rewrite formatTime_positive in H by lia.
  pose proof (Z.div_mod z 3600 ltac:(lia)) as D1.
  pose proof (Z.div_mod (z mod 3600) 60 ltac:(lia)) as D2.
  assert (Hmm : (z mod 3600) mod 60 = z mod 60)
    by (apply Z.mod_mod_divide; exists 60; reflexivity).
  rewrite Hmm in D2.
  assert (Hh : 0 <= z / 3600) by (apply Z.div_pos; lia).
  assert (Hm : 0 <= (z mod 3600) / 60 < 60).
  { pose proof (Z.mod_pos_bound z 3600 ltac:(lia)).
    split; [apply Z.div_pos; lia|apply Z.div_lt_upper_bound; lia]. }
  assert (Hs : 0 <= z mod 60 < 60) by (apply Z.mod_pos_bound; lia).
  pose proof (zero_padded_length _ Hh) as Hlh.
  assert (Hlm : String.length
                  (Js.padStart (Js.toString ((z mod 3600) / 60)) 2 "0") = 2%nat)
    by (apply padStart_two_digits; lia).
  assert (Hls : String.length
                  (Js.padStart (Js.toString (z mod 60)) 2 "0") = 2%nat)
    by (apply padStart_two_digits; lia).
  rewrite padStart_zero_padded in Hlm, Hls by lia.
  pose proof (zero_padded_zero _ Hh) as Zh.
  pose proof (zero_padded_zero _ (proj1 Hm)) as Zm.
  pose proof (zero_padded_zero _ (proj1 Hs)) as Zs.
  destruct (zero_padded (z / 3600)) as [|h1 [|h2 hr]];
    simpl in Hlh; try lia.
  destruct (zero_padded ((z mod 3600) / 60)) as [|m1 [|m2 [|? ?]]];
    try discriminate.
  destruct (zero_padded (z mod 60)) as [|s1 [|s2 [|? ?]]];
    try discriminate.
  destruct hr as [|h3 hr].
  - rewrite !append_cons, !append_nil in H.
    injection H as -> -> -> -> -> ->.
    specialize (Zh eq_refl). specialize (Zm eq_refl). specialize (Zs eq_refl).
    lia.
  - apply (f_equal String.length) in H. rewrite !append_length in H.
    cbn [String.length] in H. lia.
Qed.

Lemma formatTime_zero_iff_witness :
  -5 <= 0 /\
  formatTime (Js.Int (-5)) = "00h 00m 00s" /\
  formatTime (Js.Int 59) <> "00h 00m 00s".
Proof.
  split; [lia|]. split.
  - apply (proj2 (formatTime_zero_iff (-5))). lia.
  - intros H. apply (proj1 (formatTime_zero_iff 59)) in H. lia.
Defined.

(** * Further properties of the speech playback *)

Section PlaybackInvariants.

Variable removeMd : string -> string.

Lemma consistent_start_speech vs text forceSpeak (sp : Speech) :
  speech_consistent sp ->
  speech_consistent (start_speech removeMd vs text forceSpeak sp).
Proof.
  intros [Hn Hs]. unfold start_speech.
  destruct (negb (autoSpeak vs) && negb forceSpeak); [split; assumption|].
  destruct (blank text); [split; assumption|].
  split; [exact Hn|]. intros _ H. cbn [synth] in H.
  apply app_eq_nil in H as [_ H]. discriminate.
Qed.

Lemma consistent_ended (sp : Speech) :
  speech_consistent (utterance_ended sp).
Proof.
  split; [|discriminate].
  cbn [utterance_ended isSpeaking speakingNotified]. rewrite last_snoc.
  reflexivity.
Qed.

Lemma consistent_step (sp : Speech) (e : SpeechEvent) :
  speech_consistent sp -> speech_consistent (speech_step removeMd sp e).
Proof.
  intros Hsp. pose proof Hsp as [Hn Hs]. destruct e; cbn [speech_step].
  - unfold speakText.
    assert (Hi : speech_consistent (interrupt sp)).
    { split; [|discriminate].
      cbn [interrupt isSpeaking speakingNotified]. rewrite last_snoc.
      reflexivity. }
    destruct (currentUtterance sp).
    + destruct isToggle; [exact Hi|]. apply consistent_start_speech, Hi.
    + apply consistent_start_speech, Hsp.
  - unfold utterance_start. destruct (synth sp) as [|u rest] eqn:E;
      [exact Hsp|].
    split; [|discriminate].
    cbn [isSpeaking speakingNotified]. rewrite last_snoc. reflexivity.
  - unfold utterance_finish. apply consistent_ended.
  - unfold utterance_finish. apply consistent_ended.
  - apply consistent_ended.
Qed.

End PlaybackInvariants.

(** X11. In every state the playback cells reach from the initial one by
    calls of [speakText] and the lifecycle events of utterances, the late
    end or error events of cancelled utterances included, the avatar has
    last been told exactly the current value of [isSpeaking] (and nothing
    yet when it never changed), and [isSpeaking] is only set while the
    synthesiser has an utterance queued. *)
Theorem avatar_follows_speaking_flag :
  forall (removeMd : string -> string) (evs : list SpeechEvent),
    let sp := speech_run removeMd evs speech_init in
    isSpeaking sp = default false (last (speakingNotified sp)) /\
    (if isSpeaking sp then synth sp <> [] else True).
Proof.
  intros removeMd evs sp.
  assert (H : speech_consistent sp).
  { subst sp.
    assert (H0 : speech_consistent speech_init)
      by (split; [reflexivity|discriminate]).
    revert H0. generalize speech_init.
    induction evs as [|e evs IH]; intros s0 H0; [exact H0|].
    apply IH, consistent_step, H0. }
  destruct H as [Hn Hs]. split; [exact Hn|].
  destruct (isSpeaking sp); [apply Hs; reflexivity|exact I].
Qed.

(** X12. The read-aloud button works whatever the auto-speak setting and
    is a toggle: pressed on a message with some text while nothing plays,
    it queues the markup-stripped text; pressed again once the playback
    has started, it cancels it, tells the avatar and queues nothing. *)
Theorem read_aloud_button_toggles :
  forall (removeMd : string -> string) (vs : VoiceSettings)
         (text text' : string) (sp : Speech),
    currentUtterance sp = None ->
    synth sp = [] ->
    only_spaces (Some text) = false ->
    let u := mkUtterance (removeMd text) (selectedVoice vs) (speechRate vs) in
    let sp1 := speakText removeMd vs (Some text) true true sp in
    let sp2 := speakText removeMd vs (Some text') true true
                 (utterance_start sp1) in
    synth sp1 = [u] /\ currentUtterance sp1 = Some u /\
    isSpeaking (utterance_start sp1) = true /\
    synth sp2 = [] /\ currentUtterance sp2 = None /\
    isSpeaking sp2 = false /\
    speakingNotified sp2 = speakingNotified sp ++ [true; false].
Proof.
  intros removeMd vs text text' sp Hc Hq Hns u sp1 sp2.
  assert (H1 : sp1 = mkSpeech (Some u) (isSpeaking sp) [u] (speakingNotified sp)).
  { subst sp1. unfold speakText. rewrite Hc. unfold start_speech.
    cbn [negb]. rewrite andb_false_r, blank_only_spaces, Hns, Hq.
    reflexivity. }
  subst sp2. rewrite H1. cbn. rewrite <- app_assoc. repeat split.
Qed.

Lemma read_aloud_button_toggles_witness :
  only_spaces (Some "<b>Hello</b>") = false /\
  let sp1 := speakText strip_tags (mkVoice None 100 false)
               (Some "<b>Hello</b>") true true speech_init in
  synth sp1 = [mkUtterance "Hello" None 100] /\
  synth (speakText strip_tags (mkVoice None 100 false)
           (Some "<b>Hello</b>") true true (utterance_start sp1)) = [].
Proof.
  split; [reflexivity|]. cbv zeta.
  destruct (read_aloud_button_toggles strip_tags (mkVoice None 100 false)
              "<b>Hello</b>" "<b>Hello</b>" speech_init
              eq_refl eq_refl eq_refl) as (H1 & _ & _ & H4 & _).
  split; [exact H1|exact H4].
Defined.

(** * Further properties of a conversational turn *)

(** X13. A failed request that the [catch] block handles to its end
    leaves the user's message in place and appends one message of role
    [error] to the transcript of the dispatching session, resets the
    avatar's emotion to "neutral", schedules no reading and clears
    [isLoading]; the quota popup is opened for status 429 and the quota
    cells are left alone for every other failure. *)
Theorem failed_turn_appends_error_message :
  forall (t : Turn) (resp : option ErrorResponse) (c : Chat) (a : App),
    let r := handleSendMessage_settle t (Rejected resp) c a in
    s_threw r = false ->
    (exists m : Message,
        sessionMessages (s_app r) !! key_of (t_sessionId t) =
          Some (t_newMessages t ++ [m]) /\
        role m = error) /\
    currentEmotion (s_app r) = "neutral" /\
    s_deferred r = None /\
    isLoading (s_chat r) = false /\
    match resp with
    | Some e =>
        if status e =? 429
        then showQuotaPopup (quota (s_chat r)) = true
        else quota (s_chat r) = quota c
    | None => quota (s_chat r) = quota c
    end.
Proof.
  intros t resp c a r Hthrew. subst r. revert Hthrew.
  unfold handleSendMessage_settle.
  destruct resp as [e|].
  - destruct (status e =? 429).
    + destruct (retry_seconds (detail e)) as [seconds|]; [|discriminate].
      intros _. cbn. split; [|repeat split].
      exists quota_message. split; [apply lookup_insert_eq|reflexivity].
    + intros _. cbn. split; [|repeat split].
      exists failure_message. split; [apply lookup_insert_eq|reflexivity].
  - intros _. cbn. split; [|repeat split].
    exists failure_message. split; [apply lookup_insert_eq|reflexivity].
Qed.

Lemma failed_turn_appends_error_message_witness :
  let r := handleSendMessage_settle sample_turn
             (Rejected (Some (mkErrorResponse 500 DUndefined)))
             sample_sending_chat sample_sending_app in
  s_threw r = false /\
  sessionMessages (s_app r) !! "s1" =
    Some [mkMessage user "What is osmosis?"; failure_message] /\
  currentEmotion (s_app r) = "neutral" /\
  quota (s_chat r) = quota sample_sending_chat.
Proof.
  cbv zeta.
  destruct (failed_turn_appends_error_message sample_turn
              (Some (mkErrorResponse 500 DUndefined))
              sample_sending_chat sample_sending_app eq_refl)
    as (_ & H2 & _ & _ & H5).
  split; [reflexivity|]. split; [vm_compute; reflexivity|].
  split; [exact H2|exact H5].
Defined.

(** X14. A turn never touches the catalog, and a turn dispatched from a
    session with a non-empty identifier never changes the current session
    or the stored identifier, whatever the server answers (a session
    identifier in the response is adopted only when the turn had
    none). *)
Theorem turn_keeps_current_session :
  forall (t : Turn) (o : Outcome) (c : Chat) (a : App),
    truthy_id (t_sessionId t) = true ->
    let r := handleSendMessage_settle t o c a in
    sessionId (s_app r) = sessionId a /\
    ai_tutor_session (localStorage (s_app r)) =
      ai_tutor_session (localStorage a) /\
    sessions (s_app r) = sessions a.
Proof.
  intros t o c a Hsid r. subst r. unfold handleSendMessage_settle.
  destruct o as [data|[e|]].
  - rewrite Hsid. cbn [negb andb].
    unfold notify_emotion. destruct (emotion data) as [em|];
      [destruct (Js.nonempty em)|]; repeat split.
  - destruct (status e =? 429);
      [destruct (retry_seconds (detail e))|]; repeat split.
  - repeat split.
Qed.

Lemma turn_keeps_current_session_witness :
  truthy_id (t_sessionId sample_turn) = true /\
  sessionId
    (s_app (handleSendMessage_settle sample_turn
              (Resolved (mkResponse "Yes." None (Some "other")))
              sample_sending_chat sample_sending_app)) = Some "s1".
Proof.
  split; [reflexivity|].
  exact (proj1 (turn_keeps_current_session sample_turn
                  (Resolved (mkResponse "Yes." None (Some "other")))
                  sample_sending_chat sample_sending_app eq_refl)).
Defined.

(** X15. The continuation of a turn does not append to the transcript it
    finds: it replaces the transcript of the dispatching session by the
    messages captured at submit followed by the reply. Whatever was
    written to that transcript after the submit has no influence on the
    result and is lost. *)
Theorem settled_turn_overwrites_transcript :
  forall (t : Turn) (o : Outcome) (c : Chat) (a : App)
         (written : list Message),
    s_threw (handleSendMessage_settle t o c a) = false ->
    sessionMessages
      (s_app (handleSendMessage_settle t o c (setMessages t written a))) =
    sessionMessages (s_app (handleSendMessage_settle t o c a)).
Proof.
  intros t o c a written. unfold handleSendMessage_settle.
  destruct o as [data|[e|]].
  - intros _.
    destruct (negb (truthy_id (t_sessionId t)) && truthy_id (r_session_id data));
      unfold notify_emotion; destruct (emotion data) as [em|];
      try destruct (Js.nonempty em); cbn; apply insert_insert_eq.
  - destruct (status e =? 429).
    + destruct (retry_seconds (detail e)); [|discriminate].
      intros _. cbn. apply insert_insert_eq.
    + intros _. cbn. apply insert_insert_eq.
  - intros _. cbn. apply insert_insert_eq.
Qed.

Lemma settled_turn_overwrites_transcript_witness :
  let second := [mkMessage user "What is osmosis?";
                 mkMessage user "And diffusion?"] in
  let a := setMessages sample_turn second sample_sending_app in
  s_threw (handleSendMessage_settle sample_turn (Resolved sample_response)
             sample_sending_chat sample_sending_app) = false /\
  sessionMessages a !! "s1" = Some second /\
  sessionMessages
    (s_app (handleSendMessage_settle sample_turn (Resolved sample_response)
              sample_sending_chat a)) !! "s1" =
    Some [mkMessage user "What is osmosis?";
          mkMessage assistant "Water moves across a membrane."].
Proof.
  cbv zeta. split; [reflexivity|]. split; [vm_compute; reflexivity|].
  rewrite (settled_turn_overwrites_transcript sample_turn
             (Resolved sample_response) sample_sending_chat
             sample_sending_app
             [mkMessage user "What is osmosis?";
              mkMessage user "And diffusion?"] eq_refl).
  vm_compute. reflexivity.
Defined.

(** * Speech recognition and voices *)

Lemma append_assoc (s t u : string) : (s +:+ t) +:+ u = s +:+ (t +:+ u).
Proof.
  induction s as [|c s IH]; [reflexivity|].
  rewrite !append_cons, IH. reflexivity.
Qed.

Lemma append_nil_r (s : string) : s +:+ EmptyString = s.
Proof.
  induction s as [|c s IH]; [reflexivity|].
  rewrite append_cons, IH. reflexivity.
Qed.

Lemma concat_segments_cons (x : string) (l : list string) :
  String.concat EmptyString (x :: l) = x +:+ String.concat EmptyString l.
Proof.
  destruct l as [|y l].
  - cbn [String.concat]. rewrite append_nil_r. reflexivity.
  - reflexivity.
Qed.

Lemma concat_segments_app (l1 l2 : list string) :
  String.concat EmptyString (l1 ++ l2) =
  String.concat EmptyString l1 +:+ String.concat EmptyString l2.
Proof.
  induction l1 as [|x l1 IH]; [reflexivity|].
  change ((x :: l1) ++ l2) with (x :: (l1 ++ l2)).
  rewrite !concat_segments_cons, IH, append_assoc. reflexivity.
Qed.

Lemma final_loop_spec (rest : list RecognitionResult) (acc : string) :
  final_loop rest acc =
  acc +:+ String.concat EmptyString
            (List.map (fun r => transcript r +:+ " ")
               (List.filter isFinal rest)).
Proof.
  revert acc. induction rest as [|r rest IH]; intros acc.
  - cbn. rewrite append_nil_r. reflexivity.
  - cbn [final_loop List.filter]. rewrite IH.
    destruct (isFinal r); [|reflexivity].
    cbn [List.map]. rewrite concat_segments_cons, append_assoc. reflexivity.
Qed.

Lemma handleResult_appends (ft : string) (c : Chat) :
  handleResult ft c = setInputValue (inputValue c +:+ ft) c.
Proof.
  unfold handleResult. destruct ft as [|x ft]; [|reflexivity].
  cbn [Js.nonempty]. rewrite append_nil_r. destruct c. reflexivity.
Qed.

(** X16. A recognition result appends to the typed input, in order, the
    final segments from [resultIndex] on, each followed by a space;
    interim segments and segments before [resultIndex] are ignored, the
    text already in the input is kept in front, and no other cell
    changes. Handling the results of two events one after the other gives
    the same input as one event carrying both lists. *)
Theorem recognition_appends_final_segments :
  forall (event : RecognitionEvent) (l1 l2 : list RecognitionResult)
         (c : Chat),
    onresult event c = setInputValue (inputValue c +:+ spoken event) c /\
    onresult (mkRecognitionEvent 0 l2)
      (onresult (mkRecognitionEvent 0 l1) c) =
    onresult (mkRecognitionEvent 0 (l1 ++ l2)) c.
Proof.
  intros event l1 l2 c.
  assert (H : forall ev c0,
             onresult ev c0 = setInputValue (inputValue c0 +:+ spoken ev) c0).
  { intros ev c0. unfold onresult, spoken.
    rewrite handleResult_appends, final_loop_spec, append_nil. reflexivity. }
  split; [apply H|].
  rewrite !H. unfold spoken, setInputValue.
  cbn [resultIndex results inputValue isLoading selectedModel quota
       isListening recognition capturing speech voice].
  change (drop 0 l1) with l1. change (drop 0 l2) with l2.
  change (drop 0 (l1 ++ l2)) with (l1 ++ l2).
  rewrite List.filter_app, List.map_app, concat_segments_app, append_assoc.
  reflexivity.
Qed.

(** X17. The voice selected when the voices are loaded: none exactly when
    the browser offers no voice; otherwise a voice of the list, namely the
    first one whose language starts with "en-US" when there is one, and
    the first voice of the list when there is none. *)
Theorem default_voice_selection :
  forall (availableVoices : list SynthVoice),
    match defaultVoice availableVoices with
    | None => availableVoices = []
    | Some v =>
        exists before after,
          availableVoices = before ++ v :: after /\
          Forall (fun w => is_en_US w = false) before /\
          (is_en_US v = true \/
           (before = [] /\ Forall (fun w => is_en_US w = false) after))
    end.
Proof.
  intros l. unfold defaultVoice.
  destruct (List.find is_en_US l) as [v|] eqn:Hf.
  - clear -Hf. induction l as [|w l IH]; [discriminate|].
    simpl in Hf. destruct (is_en_US w) eqn:Ew.
    + injection Hf as <-. exists [], l. split; [reflexivity|].
      split; [constructor|left; exact Ew].
    + destruct (IH Hf) as (before & after & -> & Hb & Hv).
      exists (w :: before), after. split; [reflexivity|].
      split; [constructor; assumption|].
      destruct Hv as [Hv|[-> Ha]]; [left; exact Hv|].
      left. apply List.find_some in Hf. apply Hf.
  - destruct l as [|w l]; [reflexivity|]. cbn [head].
    exists [], l. split; [reflexivity|]. split; [constructor|].
    right. split; [reflexivity|].
    apply List.Forall_forall. intros x Hx.
    apply (List.find_none _ _ Hf x). right. exact Hx.
Qed.

Section Capture.

Variable removeMd : string -> string.

Lemma capture_consistent_step (s : Chat * App) (e : ChatEvent) :
  capture_consistent (fst s) ->
  capture_consistent (fst (fst (chat_step removeMd s e))) /\
  recognition (fst (fst (chat_step removeMd s e))) = recognition (fst s).
Proof.
  destruct s as [c a]. cbn [fst]. intros [Hc Hl].
  assert (Hkeep : forall c' : Chat,
             capturing c' = capturing c -> isListening c' = isListening c ->
             recognition c' = recognition c ->
             capture_consistent c' /\ recognition c' = recognition c).
  { intros c' H1 H2 H3. unfold capture_consistent.
    rewrite H1, H2, H3. auto. }
  assert (Hstop : forall c' : Chat,
             capturing c' = false -> isListening c' = false ->
             recognition c' = recognition c ->
             capture_consistent c' /\ recognition c' = recognition c).
  { intros c' H1 H2 H3. unfold capture_consistent.
    rewrite H1, H2. repeat split; try discriminate. exact H3. }
  destruct e; cbn [chat_step fst]; try (apply Hkeep; reflexivity).
  - unfold handleResult. destruct (Js.nonempty finalTranscript);
      apply Hkeep; reflexivity.
  - apply Hstop; reflexivity.
  - unfold toggleListening. destruct (recognition c) eqn:Hr; cbn [negb].
    + destruct (isListening c) eqn:Hi.
      * unfold capture_consistent. cbn. rewrite Hi, Hr.
        repeat split; discriminate.
      * unfold capture_consistent. cbn. rewrite Hr. repeat split.
    + split; [|exact Hr].
      split; [exact Hc|intros Hi; rewrite Hr; exact (Hl Hi)].
  - unfold handleSendMessage_submit.
    destruct (negb (Js.nonempty (Js.trim (inputValue c))) || isLoading c);
      cbn [fst]; [apply Hkeep; reflexivity|].
    destruct (isListening c && recognition c) eqn:E.
    + apply Hstop; reflexivity.
    + apply Hkeep; reflexivity.
  - unfold handleSendMessage_settle.
    destruct o as [data|[resp|]]; cbn [s_chat];
      try (apply Hkeep; reflexivity).
    destruct (status resp =? 429);
      [destruct (retry_seconds (detail resp))|]; cbn [s_chat];
      apply Hkeep; reflexivity.
Qed.

Lemma capture_consistent_run (evs : list ChatEvent) (s : Chat * App) :
  capture_consistent (fst s) ->
  capture_consistent (fst (fst (chat_run removeMd evs s))) /\
  recognition (fst (fst (chat_run removeMd evs s))) = recognition (fst s).
Proof.
  revert s. induction evs as [|e evs IH]; intros s Hs.
  - split; [exact Hs|reflexivity].
  - cbn [chat_run].
    destruct (capture_consistent_step s e Hs) as [H1 H2].
    destruct (chat_step removeMd s e) as [s1 ts1] eqn:E1. cbn [fst] in H1, H2.
    destruct (IH s1 H1) as [H3 H4].
    destruct (chat_run removeMd evs s1) as [s2 ts2]. cbn [fst] in *.
    split; [exact H3|]. rewrite H4. exact H2.
Qed.

End Capture.

(** X18. In every state a mounted chat component reaches, the recognition
    engine captures only while [isListening] is set, and [isListening] is
    set only when the browser has speech recognition; so without speech
    recognition the component never listens, and after every submit that
    dispatches a turn the component neither listens nor captures. *)
Theorem capture_stops_on_submit :
  forall (removeMd : string -> string) (hasRecognition : bool)
         (savedAutoSpeak : option bool) (a0 : App) (evs : list ChatEvent),
    let s := fst (chat_run removeMd evs
                    (chat_init hasRecognition savedAutoSpeak, a0)) in
    let sub := handleSendMessage_submit (fst s) (snd s) in
    recognition (fst s) = hasRecognition /\
    (if capturing (fst s) then isListening (fst s) = true else True) /\
    (if isListening (fst s) then hasRecognition = true else True) /\
    match snd sub with
    | Some _ =>
        isListening (fst (fst sub)) = false /\
        capturing (fst (fst sub)) = false
    | None => True
    end.
Proof.
  intros removeMd hasRecognition saved a0 evs s sub.
  assert (H0 : capture_consistent
                 (fst (chat_init hasRecognition saved, a0)))
    by (split; discriminate).
  destruct (capture_consistent_run removeMd evs _ H0) as [[Hc Hl] Hr].
  fold s in Hc, Hl, Hr. cbn [fst chat_init recognition] in Hr.
  split; [exact Hr|].
  split; [destruct (capturing (fst s)); [apply Hc; reflexivity|exact I]|].
  split; [destruct (isListening (fst s));
          [rewrite <- Hr; apply Hl; reflexivity|exact I]|].
  subst sub. unfold handleSendMessage_submit.
  destruct (negb (Js.nonempty (Js.trim (inputValue (fst s))))
            || isLoading (fst s)); [exact I|].
  cbn [snd fst].
  destruct (isListening (fst s)) eqn:Ei.
  - rewrite (Hl eq_refl). cbn. split; reflexivity.
  - cbn. split; [exact Ei|].
    destruct (capturing (fst s)) eqn:Ec; [|reflexivity].
    specialize (Hc eq_refl). discriminate.
Qed.



(** * Upload validation *)

Module UploadFacts.
Import Upload.

Lemma lower_char_dot (c : ascii) : lower_char c = "."%char -> c = "."%char.
Proof.
  destruct c as [[] [] [] [] [] [] [] []]; vm_compute; intros H;
    first [reflexivity | discriminate].
Qed.

Lemma dotless_toLowerCase (s : string) :
  dotless (toLowerCase s) = true -> dotless s = true.
Proof.
  unfold dotless. induction s as [|c s IH]; [reflexivity|].
  cbn [toLowerCase list_ascii_of_string forallb].
  intros H. apply andb_prop in H as [H1 H2].
  rewrite (IH H2), andb_true_r.
  destruct (Ascii.eqb c ".") eqn:E; [|reflexivity].
  apply Ascii.eqb_eq in E. subst c. discriminate.
Qed.

Lemma lastIndexOf_dotless (s : string) (i : Z) :
  dotless s = true -> lastIndexOf_from "." s i = -1.
Proof.
  unfold dotless. revert i. induction s as [|c s IH]; intros i H; [reflexivity|].
  cbn [list_ascii_of_string forallb] in H. apply andb_prop in H as [H1 H2].
  cbn [lastIndexOf_from]. rewrite (IH _ H2). cbn.
  apply negb_true_iff in H1. rewrite H1. reflexivity.
Qed.

Lemma lastIndexOf_last_dot (stem rest : string) (i : Z) :
  0 <= i -> dotless rest = true ->
  lastIndexOf_from "." (stem +:+ String "." rest) i =
  i + Z.of_nat (String.length stem).
Proof.
  intros Hi Hrest. revert i Hi.
  induction stem as [|c stem IH]; intros i Hi.
  - rewrite append_nil. cbn [lastIndexOf_from String.length].
    rewrite (lastIndexOf_dotless _ _ Hrest). cbn. lia.
  - rewrite append_cons. cbn [lastIndexOf_from String.length].
    rewrite IH by lia.
    destruct (i + 1 + Z.of_nat (String.length stem) =? -1) eqn:E;
      [apply Z.eqb_eq in E; lia|]. lia.
Qed.

Lemma string_drop_append (stem t : string) :
  string_drop (String.length stem) (stem +:+ t) = t.
Proof. induction stem as [|c stem IH]; [destruct t; reflexivity|exact IH]. Qed.

Lemma string_drop_suffix (n : nat) (s : string) :
  exists stem, s = stem +:+ string_drop n s.
Proof.
  revert s. induction n as [|n IH]; intros s.
  - exists EmptyString. destruct s; reflexivity.
  - destruct s as [|c s]; [exists EmptyString; reflexivity|].
    destruct (IH s) as [stem Hs]. exists (String c stem).
    rewrite append_cons. cbn [string_drop]. rewrite <- Hs. reflexivity.
Qed.

Lemma includes_iff (l : list string) (x : string) :
  includes l x = true <-> In x l.
Proof.
  unfold includes. rewrite List.existsb_exists. split.
  - intros (y & Hy & E). apply String.eqb_eq in E. subst y. exact Hy.
  - intros H. exists x. split; [exact H|apply String.eqb_refl].
Qed.

(** An extension that lower-cases to a valid one is a dot followed by
    characters that are not dots. *)
Lemma valid_extension_shape (ext : string) :
  In (toLowerCase ext) validExtensions ->
  exists rest, ext = String "." rest /\ dotless rest = true.
Proof.
  intros H. destruct ext as [|c rest].
  - cbn in H. intuition discriminate.
  - cbn [toLowerCase] in H.
    assert (Hc : lower_char c = "."%char /\ dotless (toLowerCase rest) = true).
    { cbn in H. destruct H as [H|[H|[H|[]]]]; injection H as <- <-;
        split; reflexivity. }
    destruct Hc as [Hc Hr]. apply lower_char_dot in Hc. subst c.
    exists rest. split; [reflexivity|apply dotless_toLowerCase, Hr].
Qed.

(** The extension test of the handler succeeds exactly when the name
    ends, up to letter case, with a valid extension. *)
Lemma extension_valid_iff (n : string) :
  includes validExtensions (toLowerCase (substring (lastIndexOf "." n) n))
    = true <->
  exists stem ext, n = stem +:+ ext /\ In (toLowerCase ext) validExtensions.
Proof.
  rewrite includes_iff. split.
  - intros Hinc. unfold substring in Hinc.
    destruct (string_drop_suffix
                (Z.to_nat (Z.max 0 (lastIndexOf "." n))) n) as [stem Hstem].
    eexists stem, _. split; [exact Hstem|exact Hinc].
  - intros (stem & ext & Hname & Hext).
    destruct (valid_extension_shape ext Hext) as (rest & -> & Hrest).
    rewrite Hname. unfold lastIndexOf.
    rewrite lastIndexOf_last_dot by (lia || exact Hrest).
    unfold substring.
    replace (Z.to_nat (Z.max 0 (0 + Z.of_nat (String.length stem))))
      with (String.length stem) by lia.
    rewrite string_drop_append. exact Hext.
Qed.

End UploadFacts.

(** X20. What [handleFileUpload] decides for a chosen file, the type
    being checked before the size: the file is refused as of invalid type
    exactly when its name does not end, in any mix of upper and lower
    case, with ".pdf", ".docx" or ".html", whatever its size; it is
    refused as too large exactly when the name ends so and the size
    exceeds 10 MiB (10485760 bytes); and it goes on to the upload exactly
    when the name ends so and the size is at most 10 MiB. With no file
    chosen nothing is done. *)
Theorem upload_accepted_iff :
  forall (f : Upload.File),
    let valid_name :=
      exists stem ext,
        Upload.name f = stem +:+ ext /\
        In (Upload.toLowerCase ext) Upload.validExtensions in
    (Upload.validate (Some f) = Upload.InvalidType <-> ~ valid_name) /\
    (Upload.validate (Some f) = Upload.TooLarge <->
     valid_name /\ 10485760 < Upload.size f) /\
    (Upload.validate (Some f) = Upload.Accepted <->
     valid_name /\ Upload.size f <= 10485760) /\
    Upload.validate None = Upload.NoFile.
Proof.
  intros f valid_name.
  pose proof (UploadFacts.extension_valid_iff (Upload.name f)) as Hext.
  fold valid_name in Hext.
  unfold Upload.validate. cbv zeta. change Upload.maxSize with 10485760.
  assert (Hcases :
            Upload.includes Upload.validExtensions
              (Upload.toLowerCase
                 (Upload.substring (Upload.lastIndexOf "." (Upload.name f))
                    (Upload.name f))) = true /\ valid_name \/
            Upload.includes Upload.validExtensions
              (Upload.toLowerCase
                 (Upload.substring (Upload.lastIndexOf "." (Upload.name f))
                    (Upload.name f))) = false /\ ~ valid_name).
  { destruct (Upload.includes Upload.validExtensions _) eqn:Hinc.
    - left. split; [reflexivity|]. apply Hext. reflexivity.
    - right. split; [reflexivity|]. intros H. apply Hext in H. discriminate. }
  destruct Hcases as [[-> Hv]|[-> Hv]]; cbn [negb].
  - destruct (10485760 <? Upload.size f) eqn:Hs;
      [apply Z.ltb_lt in Hs|apply Z.ltb_ge in Hs];
      (split; [|split; [|split; [|reflexivity]]]); split; intros H;
      first [discriminate H | reflexivity | contradiction
            | (split; assumption) | (destruct H as [_ H]; lia)].
  - (split; [|split; [|split; [|reflexivity]]]); split; intros H;
      first [discriminate H | reflexivity | assumption
            | (destruct H as [H _]; contradiction)].
Qed.

Lemma upload_accepted_iff_witness :
  Upload.validate (Some (Upload.mkFile "Lecture.Notes.PDF" 2048)) =
    Upload.Accepted /\
  Upload.validate (Some (Upload.mkFile "virus.exe" 99999999)) =
    Upload.InvalidType /\
  ~ (exists stem ext,
        "virus.exe" = stem +:+ ext /\
        In (Upload.toLowerCase ext) Upload.validExtensions) /\
  Upload.validate (Some (Upload.mkFile "pdf" 2048)) = Upload.InvalidType /\
  10485760 < 10485761 /\
  Upload.validate (Some (Upload.mkFile "big.docx" 10485761)) = Upload.TooLarge.
Proof.
  split.
  - apply (proj1 (proj2 (proj2 (upload_accepted_iff
                    (Upload.mkFile "Lecture.Notes.PDF" 2048))))).
    split; [|cbn; lia].
    exists "Lecture.Notes", ".PDF". split; [reflexivity|].
    vm_compute. left. reflexivity.
  - split; [reflexivity|]. split.
    + apply (proj1 (proj1 (upload_accepted_iff
                             (Upload.mkFile "virus.exe" 99999999)))).
      reflexivity.
    + split; [reflexivity|]. split; [lia|].
      apply (proj1 (proj2 (upload_accepted_iff
                             (Upload.mkFile "big.docx" 10485761)))).
      split; [|cbn; lia].
      exists "big", ".docx". split; [reflexivity|].
      vm_compute. right. left. reflexivity.
Defined.

(** * The avatar *)

Lemma eye_style_shown (m : Mascot.t) :
  Mascot.getEyeStyle m = "eyes-" +:+ Mascot.shown (Mascot.displayEmotion m).
Proof.
  unfold Mascot.getEyeStyle, Mascot.shown, Mascot.EMOTIONS.
  cbn [existsb]. generalize (Mascot.displayEmotion m). intros d.
  destruct (String.eqb d "happy") eqn:E1;
    [apply String.eqb_eq in E1; subst d; reflexivity|].
  destruct (String.eqb d "thinking") eqn:E2;
    [apply String.eqb_eq in E2; subst d; reflexivity|].
  destruct (String.eqb d "encouraging") eqn:E3;
    [apply String.eqb_eq in E3; subst d; reflexivity|].
  destruct (String.eqb d "explaining") eqn:E4;
    [apply String.eqb_eq in E4; subst d; reflexivity|].
  destruct (String.eqb d "neutral") eqn:E5;
    [apply String.eqb_eq in E5; subst d; reflexivity|].
  reflexivity.
Qed.

Lemma mouth_style_shown (m : Mascot.t) :
  Mascot.mouthMoving m = false ->
  Mascot.getMouthStyle m = "mouth-" +:+ Mascot.shown (Mascot.displayEmotion m).
Proof.
  intros Hm. unfold Mascot.getMouthStyle, Mascot.shown, Mascot.EMOTIONS.
  rewrite Hm. cbn [existsb]. generalize (Mascot.displayEmotion m). intros d.
  destruct (String.eqb d "happy") eqn:E1;
    [apply String.eqb_eq in E1; subst d; reflexivity|].
  destruct (String.eqb d "thinking") eqn:E2;
    [apply String.eqb_eq in E2; subst d; reflexivity|].
  destruct (String.eqb d "encouraging") eqn:E3;
    [apply String.eqb_eq in E3; subst d; reflexivity|].
  destruct (String.eqb d "explaining") eqn:E4;
    [apply String.eqb_eq in E4; subst d; reflexivity|].
  destruct (String.eqb d "neutral") eqn:E5;
    [apply String.eqb_eq in E5; subst d; reflexivity|].
  reflexivity.
Qed.

Lemma mascot_settled_step (m : Mascot.t) (e : Mascot.Event) :
  Mascot.displayEmotion m = Mascot.emotion m /\
  Mascot.speechInterval m = Mascot.isSpeaking m /\
  (Mascot.mouthMoving m = true -> Mascot.isSpeaking m = true) ->
  let m' := Mascot.step m e in
  Mascot.displayEmotion m' = Mascot.emotion m' /\
  Mascot.speechInterval m' = Mascot.isSpeaking m' /\
  (Mascot.mouthMoving m' = true -> Mascot.isSpeaking m' = true).
Proof.
  intros (Hd & Hi & Hm). destruct e as [e' s'|]; cbn [Mascot.step].
  - unfold Mascot.render. cbv zeta.
    assert (He : (if String.eqb e' (Mascot.emotion m)
                  then Mascot.displayEmotion m else e') = e').
    { destruct (String.eqb e' (Mascot.emotion m)) eqn:Ee; [|reflexivity].
      apply String.eqb_eq in Ee. subst e'. exact Hd. }
    rewrite He.
    destruct (Bool.eqb s' (Mascot.isSpeaking m)) eqn:Es; cbn.
    + repeat split; assumption.
    + repeat split. intros H; exact H.
  - unfold Mascot.interval_fires.
    destruct (Mascot.speechInterval m) eqn:E; cbn.
    + repeat split; try assumption. intros _. rewrite <- Hi. reflexivity.
    + repeat split; try assumption. rewrite E. exact Hi.
Qed.

(** X21. In every state the avatar reaches from its mount by renders with
    new props and firings of its mouth interval, the face shows the
    emotion prop: the eyes have the style of that emotion when it is one
    of the five of the configuration and the neutral style for any other
    label, and so has the mouth whenever the avatar is not speaking; the
    mouth interval is pending exactly while the avatar is speaking, and
    the mouth is never shown moving when it is not. *)
Theorem avatar_shows_emotion :
  forall (emotion0 : string) (speaking0 : bool) (evs : list Mascot.Event),
    let m := Mascot.run evs (Mascot.mount emotion0 speaking0) in
    Mascot.getEyeStyle m = "eyes-" +:+ Mascot.shown (Mascot.emotion m) /\
    (if Mascot.isSpeaking m then True
     else Mascot.getMouthStyle m =
          "mouth-" +:+ Mascot.shown (Mascot.emotion m)) /\
    Mascot.speechInterval m = Mascot.isSpeaking m /\
    (if Mascot.mouthMoving m then Mascot.isSpeaking m = true else True).
Proof.
  intros e0 s0 evs m.
  assert (H : Mascot.displayEmotion m = Mascot.emotion m /\
              Mascot.speechInterval m = Mascot.isSpeaking m /\
              (Mascot.mouthMoving m = true -> Mascot.isSpeaking m = true)).
  { subst m.
    assert (H0 : Mascot.displayEmotion (Mascot.mount e0 s0) =
                   Mascot.emotion (Mascot.mount e0 s0) /\
                 Mascot.speechInterval (Mascot.mount e0 s0) =
                   Mascot.isSpeaking (Mascot.mount e0 s0) /\
                 (Mascot.mouthMoving (Mascot.mount e0 s0) = true ->
                  Mascot.isSpeaking (Mascot.mount e0 s0) = true))
      by (cbn; auto).
    revert H0. generalize (Mascot.mount e0 s0).
    induction evs as [|e evs IH]; intros m0 H0; [exact H0|].
    apply IH, mascot_settled_step, H0. }
  destruct H as (Hd & Hi & Hm).
  split; [rewrite eye_style_shown, Hd; reflexivity|].
  split.
  - destruct (Mascot.isSpeaking m) eqn:Es; [exact I|].
    rewrite <- Hd. apply mouth_style_shown.
    destruct (Mascot.mouthMoving m); [specialize (Hm eq_refl); discriminate|].
    reflexivity.
  - split; [exact Hi|].
    destruct (Mascot.mouthMoving m); [apply Hm; reflexivity|exact I].
Qed.
